(** * NBA props dashboard: grouping, stake sizing, filter/sort pipeline, favorites

    A shallow embedding of the logic of the dashboard component
    [NBAPropsDashboard] (the React component of the front end): the state held
    by the component, the fetch batch [fetchAllData], the favorites index
    ([toggleFavorite], [isFavorite]), the grouping memo [groupedProps], the
    filter/sort memo [filteredData], the row filter of the "All Props" view
    and the stake split [calculateStakes]; then the manual refresh
    [handleFullRefresh], the favorites read at mount, the memo [propTypes],
    [formatOdds] and [getOddsColor], the best-side badges, the footer counts,
    the arbitrage view, and [filteredData] as the earlier version of the
    component has it.

    Conventions of the embedding.
    - A JavaScript number is an extended rational [num]: an exact rational, or
      one of the three IEEE special values.  Arithmetic follows IEEE 754 on
      the special values and on division by zero, and is exact on finite
      values: rounding is not part of [num].  What is proved over [num] is
      the order, the sign and the special values of numbers, which rounding
      keeps.
    - Where the digits matter, in the stake split, the numbers are the
      binary64 numbers of the language themselves (module [Double]), with
      every operation rounded as IEEE 754 prescribes.
    - A property of a JSON record that may be missing or [null] is a
      [field]: [Absent] is JavaScript's [undefined].
    - An array that the code may share is a location in a [store]; the pure
      functions on lists give the contents. *)

From Stdlib Require Import Floats Uint63.
From Stdlib Require Import QArith Qabs ZArith String Ascii List Permutation Sorted Lia Lqa.
From stdpp Require Import base gmap strings.
Import ListNotations.

(** ** Numbers *)

Module Num.

Inductive num : Type :=
| Fin (q : Q)
| PInf
| NInf
| NaN.

(** Finite results are kept in lowest terms, so that equal numbers are equal
    terms once computed. *)
Definition fin (q : Q) : num := Fin (Qred q).

Definition ofZ (z : Z) : num := Fin (inject_Z z).

Inductive sign : Type := Neg | Zero | Pos.

Definition Qsign (q : Q) : sign :=
  match (q ?= 0)%Q with
  | Lt => Neg
  | Eq => Zero
  | Gt => Pos
  end.

(** The infinity of a given sign; a zero gives "not a number" (0 * Infinity,
    0 / 0). *)
Definition inf_of (s : sign) : num :=
  match s with
  | Pos => PInf
  | Neg => NInf
  | Zero => NaN
  end.

Definition flip (s : sign) : sign :=
  match s with
  | Pos => Neg
  | Neg => Pos
  | Zero => Zero
  end.

Definition neg (a : num) : num :=
  match a with
  | Fin q => fin (- q)
  | PInf => NInf
  | NInf => PInf
  | NaN => NaN
  end.

Definition add (a b : num) : num :=
  match a, b with
  | NaN, _ | _, NaN => NaN
  | Fin x, Fin y => fin (x + y)
  | PInf, NInf | NInf, PInf => NaN
  | PInf, _ | _, PInf => PInf
  | NInf, _ | _, NInf => NInf
  end.

Definition sub (a b : num) : num := add a (neg b).

Definition mul (a b : num) : num :=
  match a, b with
  | NaN, _ | _, NaN => NaN
  | Fin x, Fin y => fin (x * y)
  | Fin x, PInf | PInf, Fin x => inf_of (Qsign x)
  | Fin x, NInf | NInf, Fin x => inf_of (flip (Qsign x))
  | PInf, PInf | NInf, NInf => PInf
  | PInf, NInf | NInf, PInf => NInf
  end.

(** Division.  A finite zero divisor is the positive zero: the code divides by
    zero only through [Math.abs], whose result is never the negative zero. *)
Definition div (a b : num) : num :=
  match a, b with
  | NaN, _ | _, NaN => NaN
  | Fin x, Fin y =>
      match Qsign y with
      | Zero => inf_of (Qsign x)
      | _ => fin (x / y)
      end
  | Fin _, PInf | Fin _, NInf => Fin 0
  | PInf, Fin y => match Qsign y with Neg => NInf | _ => PInf end
  | NInf, Fin y => match Qsign y with Neg => PInf | _ => NInf end
  | _, _ => NaN
  end.

(** [Math.abs] *)
Definition abs (a : num) : num :=
  match a with
  | Fin q => fin (Qabs q)
  | PInf | NInf => PInf
  | NaN => NaN
  end.

(** [a > b]: false as soon as one side is not a number. *)
Definition gt (a b : num) : bool :=
  match a, b with
  | NaN, _ | _, NaN => false
  | Fin x, Fin y => match (x ?= y)%Q with Gt => true | _ => false end
  | PInf, PInf | NInf, _ | Fin _, PInf => false
  | PInf, _ | Fin _, NInf => true
  end.

(** [a !== b] on numbers: a NaN differs from everything, itself included. *)
Definition strict_ne (a b : num) : bool :=
  match a, b with
  | NaN, _ | _, NaN => true
  | Fin x, Fin y => negb (Qeq_bool x y)
  | PInf, PInf | NInf, NInf => false
  | _, _ => true
  end.

(** Truthiness of a number: zero and NaN are falsy. *)
Definition truthy (a : num) : bool :=
  match a with
  | Fin q => negb (Qeq_bool q 0)
  | NaN => false
  | PInf | NInf => true
  end.


Definition is_finite (a : num) : Prop :=
  match a with Fin _ => True | _ => False end.

End Num.

Import Num.

(** ** Optional fields of JSON records *)

Inductive field (A : Type) : Type :=
| Absent
| Null
| Val (a : A).
Arguments Absent {A}.
Arguments Null {A}.
Arguments Val {A} a.

(** [ToNumber] on a numeric field: [undefined] is NaN and [null] is 0. *)
Definition toNumber (v : field num) : num :=
  match v with
  | Absent => NaN
  | Null => Fin 0
  | Val n => n
  end.

Definition is_null {A} (v : field A) : bool :=
  match v with Null => true | _ => false end.

(** ** Completions: a call returns or throws *)

Inductive completion (A : Type) : Type :=
| Normal (a : A)
| Throw (message : string).
Arguments Normal {A} a.
Arguments Throw {A} message.

(** ** The stake split *)

Record Stakes : Type := mkStakes {
  stakeOver : num;
  stakeUnder : num;
  profit : num
}.

(** The decimal payout multiplier of American odds.  The source writes this
    expression twice, for [decOver] and for [decUnder]:
    [odds > 0 ? (odds / 100) + 1 : (100 / Math.abs(odds)) + 1]. *)
Definition decimalMultiplier (odds : field num) : num :=
  if gt (toNumber odds) (Fin 0)
  then add (div (toNumber odds) (Fin 100)) (Fin 1)
  else add (div (Fin 100) (abs (toNumber odds))) (Fin 1).

(** [calculateStakes(overOdds, underOdds, totalStake = 100)].  The default of
    the third parameter applies when it is [undefined].  The body has two
    [return] statements and no [throw].  Over [num] this gives which
    [return] is taken and the special values of the result; the digits of
    the result are those of [Double.calculateStakes] below. *)
Definition calculateStakes (overOdds underOdds totalStake : field num)
  : completion Stakes :=
  let totalStake := match totalStake with Absent => Fin 100 | v => toNumber v end in
  if is_null overOdds || is_null underOdds
  then Normal (mkStakes (Fin 0) (Fin 0) (Fin 0))
  else
    let decOver := decimalMultiplier overOdds in
    let decUnder := decimalMultiplier underOdds in
    let stakeOver := div totalStake (add (Fin 1) (div decOver decUnder)) in
    let stakeUnder := sub totalStake stakeOver in
    let profit := sub (mul stakeOver decOver) totalStake in
    Normal (mkStakes stakeOver stakeUnder profit).


(** ** Strings *)

(** [toLowerCase], on the ASCII letters. *)
Definition lower_ascii (c : ascii) : ascii :=
  let n := nat_of_ascii c in
  if (65 <=? n)%nat && (n <=? 90)%nat then ascii_of_nat (n + 32) else c.

Fixpoint toLowerCase (s : string) : string :=
  match s with
  | EmptyString => EmptyString
  | String c s' => String (lower_ascii c) (toLowerCase s')
  end.

(** [s.includes(sub)] *)
Fixpoint includes (s sub : string) : bool :=
  String.prefix sub s ||
  match s with
  | EmptyString => false
  | String _ s' => includes s' sub
  end.

(** The composite key [`${a}-${b}`] of the favorites and of the grouping. *)
Definition composite_key (a b : string) : string := a +:+ "-" +:+ b.

(** ** Records *)

(** A raw quote, as the props endpoint returns it. *)
Module Quote.
Record t : Type := mk {
  player : string;
  prop_type : string;
  game : field string;
  team : field string;
  sportsbook : string;
  line : field num;
  over_odds : field num;
  under_odds : field num
}.
End Quote.

(** The value stored under [books[...]]. *)
Record BookEntry : Type := mkBookEntry {
  line : field num;
  overOdds : field num;
  underOdds : field num
}.

(** One value of the [grouped] object. *)
Module Grouped.
Record t : Type := mk {
  player : string;
  propType : string;
  game : field string;
  team : field string;
  books : gmap string BookEntry
}.
End Grouped.

(** A record of one of the five opportunity endpoints, with the properties the
    component reads for filtering, sorting and stake sizing. *)
Module Opp.
Record t : Type := mk {
  player : string;
  prop_type : field string;
  best_book : field string;
  profit_percent : field num;
  edge_percent : field num;
  odds_difference : field num;
  line_difference : field num;
  over_odds : field num;
  under_odds : field num
}.
End Opp.

(** ** Grouping: the memo [groupedProps] *)

(** The object [grouped]: its own string keys in insertion order.  (No key is
    an array index, since every key holds a "-", so insertion order is the
    enumeration order of [Object.values].) *)
Definition grouped_obj : Type := list (string * Grouped.t).

Fixpoint obj_get (key : string) (o : grouped_obj) : option Grouped.t :=
  match o with
  | [] => None
  | (k, g) :: o' => if String.eqb k key then Some g else obj_get key o'
  end.

(** [g.books[book] = entry] *)
Definition add_book (book : string) (e : BookEntry) (g : Grouped.t) : Grouped.t :=
  Grouped.mk (Grouped.player g) (Grouped.propType g) (Grouped.game g)
    (Grouped.team g) (<[book := e]> (Grouped.books g)).

(** [grouped[key].books[book] = entry] *)
Fixpoint obj_set_book (key book : string) (e : BookEntry) (o : grouped_obj)
  : grouped_obj :=
  match o with
  | [] => []
  | (k, g) :: o' =>
      if String.eqb k key
      then (k, add_book book e g) :: o'
      else (k, g) :: obj_set_book key book e o'
  end.

Definition quote_key (prop : Quote.t) : string :=
  composite_key (Quote.player prop) (Quote.prop_type prop).

Definition book_entry (prop : Quote.t) : BookEntry :=
  mkBookEntry (Quote.line prop) (Quote.over_odds prop) (Quote.under_odds prop).

(** The object stored at a key seen for the first time. *)
Definition seed (prop : Quote.t) : Grouped.t :=
  Grouped.mk (Quote.player prop) (Quote.prop_type prop)
    (Quote.game prop) (Quote.team prop) ∅.

(** The body of the [forEach] callback. *)
Definition group_step (grouped : grouped_obj) (prop : Quote.t) : grouped_obj :=
  let key := quote_key prop in
  let grouped :=
    match obj_get key grouped with
    | Some _ => grouped
    | None => grouped ++ [(key, seed prop)]
    end in
  obj_set_book key (toLowerCase (Quote.sportsbook prop)) (book_entry prop) grouped.

Definition grouped_of (allProps : list Quote.t) : grouped_obj :=
  fold_left group_step allProps [].

Definition groupedProps (allProps : list Quote.t) : list Grouped.t :=
  map snd (grouped_of allProps).

(** The line-mismatch flag of the "All Props" view:
    [hasBothBooks && dkLine !== fdLine]. *)
Definition line_strict_ne (a b : field num) : bool :=
  match a, b with
  | Absent, Absent | Null, Null => false
  | Val x, Val y => strict_ne x y
  | _, _ => true
  end.

Definition lineMismatch (prop : Grouped.t) : bool :=
  match Grouped.books prop !! "draftkings", Grouped.books prop !! "fanduel" with
  | Some dk, Some fd => line_strict_ne (line dk) (line fd)
  | _, _ => false
  end.

(** The keys of a list in the order of their first occurrence. *)
Fixpoint first_seen (keys : list string) : list string :=
  match keys with
  | [] => []
  | k :: keys' => k :: List.filter (fun k' => negb (String.eqb k' k)) (first_seen keys')
  end.

Definition grouped_key (g : Grouped.t) : string :=
  composite_key (Grouped.player g) (Grouped.propType g).

(** ** The state of the component *)

(** The six tab ids that [setActiveTab] can store.  (The [default] branch of
    the [switch] in [filteredData] is for no tab of the component.) *)
Inductive Tab : Type :=
| TabAll
| TabArbitrage
| TabValue
| TabConsensus
| TabDiscrepancies
| TabBestOdds.

(** The [useState] cells of the component, and the browser's [localStorage],
    whose values are JSON texts, held here decoded. *)
Record State : Type := mkState {
  activeTab : Tab;
  allProps : list Quote.t;
  arbitrage : list Opp.t;
  discrepancies : list Opp.t;
  bestOdds : list Opp.t;
  valueBets : list Opp.t;
  consensusBets : list Opp.t;
  loading : bool;
  isScraping : bool;
  searchQuery : string;
  selectedPropType : string;
  selectedBook : string;
  sortBy : string;
  showFavorites : bool;
  favorites : list string;
  error : field string;
  localStorage : gmap string (list string)
}.

Definition tab_eqb (a b : Tab) : bool :=
  match a, b with
  | TabAll, TabAll | TabArbitrage, TabArbitrage | TabValue, TabValue
  | TabConsensus, TabConsensus | TabDiscrepancies, TabDiscrepancies
  | TabBestOdds, TabBestOdds => true
  | _, _ => false
  end.

(** ** Favorites *)

(** [favorites.includes(key)] *)
Definition array_includes (favorites : list string) (key : string) : bool :=
  existsb (String.eqb key) favorites.

Definition isFavorite (st : State) (player propType : string) : bool :=
  array_includes (favorites st) (composite_key player propType).

Definition toggleFavorite (player propType : string) (st : State) : State :=
  let key := composite_key player propType in
  let newFavorites :=
    if array_includes (favorites st) key
    then List.filter (fun f => negb (String.eqb f key)) (favorites st)
    else favorites st ++ [key] in
  mkState (activeTab st) (allProps st) (arbitrage st) (discrepancies st)
    (bestOdds st) (valueBets st) (consensusBets st) (loading st)
    (isScraping st) (searchQuery st) (selectedPropType st) (selectedBook st)
    (sortBy st) (showFavorites st) newFavorites (error st)
    (<["favorites" := newFavorites]> (localStorage st)).

(** ** The fetch batch: [fetchAllData] *)

(** What a settled [fetch] gives: the [ok] flag, and what [json()] settles
    to. *)
Record Response (A : Type) : Type := mkResponse {
  ok : bool;
  json : completion A
}.
Arguments mkResponse {A} ok json.
Arguments ok {A} r.
Arguments json {A} r.

(** The six requests of one batch, each settled: a rejected [fetch] is a
    [Throw]. *)
Record Batch : Type := mkBatch {
  propsReq : completion (Response (list Quote.t));
  arbReq : completion (Response (list Opp.t));
  discReq : completion (Response (list Opp.t));
  oddsReq : completion (Response (list Opp.t));
  valueReq : completion (Response (list Opp.t));
  consensusReq : completion (Response (list Opp.t))
}.

Definition cbind {A B} (c : completion A) (k : A -> completion B) : completion B :=
  match c with
  | Normal a => k a
  | Throw m => Throw m
  end.

Notation "'try!' x <- c ; k" := (cbind c (fun x => k))
  (at level 10, x name, c at level 100, k at level 200).

Record Payload : Type := mkPayload {
  propsData : list Quote.t;
  arbData : list Opp.t;
  discData : list Opp.t;
  oddsData : list Opp.t;
  valueData : list Opp.t;
  consensusData : list Opp.t
}.

(** The [try] block up to the first setter.  [Promise.all] rejects as soon as
    one request rejects; of several rejections the model reports the first in
    the order of the array. *)
Definition fetch_try (b : Batch) : completion Payload :=
  try! propsRes <- propsReq b;
  try! arbRes <- arbReq b;
  try! discRes <- discReq b;
  try! oddsRes <- oddsReq b;
  try! valueRes <- valueReq b;
  try! consensusRes <- consensusReq b;
  if negb (ok propsRes) || negb (ok arbRes) || negb (ok discRes)
     || negb (ok oddsRes) || negb (ok valueRes) || negb (ok consensusRes)
  then Throw "One or more API endpoints failed"
  else
    try! propsData <- json propsRes;
    try! arbData <- json arbRes;
    try! discData <- json discRes;
    try! oddsData <- json oddsRes;
    try! valueData <- json valueRes;
    try! consensusData <- json consensusRes;
    Normal (mkPayload propsData arbData discData oddsData valueData consensusData).

Definition fetchAllData (b : Batch) (st : State) : State :=
  match fetch_try b with
  | Normal d =>
      mkState (activeTab st) (propsData d) (arbData d) (discData d)
        (oddsData d) (valueData d) (consensusData d) false
        (isScraping st) (searchQuery st) (selectedPropType st) (selectedBook st)
        (sortBy st) (showFavorites st) (favorites st) Null (localStorage st)
  | Throw message =>
      mkState (activeTab st) [] [] [] [] [] [] false
        (isScraping st) (searchQuery st) (selectedPropType st) (selectedBook st)
        (sortBy st) (showFavorites st) (favorites st)
        (Val ("Failed to fetch prop data. (" +:+ message +:+ ")"))
        (localStorage st)
  end.

(** A request fails when its [fetch] rejects or its response is not [ok]. *)
Definition request_failed {A} (r : completion (Response A)) : bool :=
  match r with
  | Throw _ => true
  | Normal res => negb (ok res)
  end.

Definition some_request_failed (b : Batch) : bool :=
  request_failed (propsReq b) || request_failed (arbReq b)
  || request_failed (discReq b) || request_failed (oddsReq b)
  || request_failed (valueReq b) || request_failed (consensusReq b).

(** ** The filter/sort pipeline: the memo [filteredData] *)

(** An element of [data]: a grouped prop on the "all" tab, an opportunity
    record on the others.  The accessors below read a property the way the
    code does, whatever the element is; a property the element does not have
    is [Absent]. *)
Inductive item : Type :=
| IGrouped (g : Grouped.t)
| IOpp (o : Opp.t).

Definition item_player (i : item) : string :=
  match i with
  | IGrouped g => Grouped.player g
  | IOpp o => Opp.player o
  end.

Definition item_propType (i : item) : field string :=
  match i with
  | IGrouped g => Val (Grouped.propType g)
  | IOpp _ => Absent
  end.

Definition item_prop_type (i : item) : field string :=
  match i with
  | IGrouped _ => Absent
  | IOpp o => Opp.prop_type o
  end.

Definition item_best_book (i : item) : field string :=
  match i with
  | IGrouped _ => Absent
  | IOpp o => Opp.best_book o
  end.

Definition item_rank (f : Opp.t -> field num) (i : item) : field num :=
  match i with
  | IGrouped _ => Absent
  | IOpp o => f o
  end.

(** Truthiness of a string property: the empty string is falsy. *)
Definition truthy_str (v : field string) : bool :=
  match v with
  | Val s => negb (String.eqb s "")
  | _ => false
  end.

(** [item.propType || item.prop_type] *)
Definition propType_of (i : item) : field string :=
  if truthy_str (item_propType i) then item_propType i else item_prop_type i.

(** [v === s] for a string [s] *)
Definition strict_eq_str (v : field string) (s : string) : bool :=
  match v with
  | Val s' => String.eqb s' s
  | _ => false
  end.

(** A property inside a template literal. *)
Definition template (v : field string) : string :=
  match v with
  | Absent => "undefined"
  | Null => "null"
  | Val s => s
  end.

(** [x || 0] on a numeric property *)
Definition or_zero (v : field num) : num :=
  match v with
  | Val n => if truthy n then n else Fin 0
  | _ => Fin 0
  end.

(** The collation of the host, [String.prototype.localeCompare]: negative,
    zero or positive. *)
Class Collator : Type := localeCompare : string -> string -> Z.

(** [Array.prototype.sort(cmp)] as a stable insertion sort: an element moves
    behind a later one only when the comparator is positive on the pair; a
    NaN counts as zero.  For a consistent comparator this is the result the
    language prescribes.  A comparator that returns NaN on some pairs is not
    consistent, and the order is then the engine's choice: of such inputs
    only what holds of every order (the elements, their number) is meant. *)
Fixpoint sort_insert {A} (cmp : A -> A -> num) (x : A) (l : list A) : list A :=
  match l with
  | [] => [x]
  | y :: l' => if gt (cmp x y) (Fin 0) then y :: sort_insert cmp x l' else x :: l
  end.

Fixpoint array_sort {A} (cmp : A -> A -> num) (l : list A) : list A :=
  match l with
  | [] => []
  | x :: l' => sort_insert cmp x (array_sort cmp l')
  end.

Definition by_player `{Collator} (a b : item) : num :=
  ofZ (localeCompare (item_player a) (item_player b)).

(** The comparator of each tab; the "all" tab is not sorted. *)
Definition tab_compare `{Collator} (tab : Tab) (sortBy : string)
  : option (item -> item -> num) :=
  let profit := String.eqb sortBy "profit" in
  match tab with
  | TabAll => None
  | TabArbitrage => Some (fun a b =>
      if profit
      then sub (toNumber (item_rank Opp.profit_percent b))
               (toNumber (item_rank Opp.profit_percent a))
      else by_player a b)
  | TabValue => Some (fun a b =>
      if profit
      then sub (or_zero (item_rank Opp.edge_percent b))
               (or_zero (item_rank Opp.edge_percent a))
      else by_player a b)
  | TabConsensus | TabBestOdds => Some (fun a b =>
      if profit
      then sub (toNumber (item_rank Opp.odds_difference b))
               (toNumber (item_rank Opp.odds_difference a))
      else by_player a b)
  | TabDiscrepancies => Some (fun a b =>
      if profit
      then sub (toNumber (item_rank Opp.line_difference b))
               (toNumber (item_rank Opp.line_difference a))
      else by_player a b)
  end.

(** The base collection of the active tab. *)
Definition base_data (st : State) : list item :=
  match activeTab st with
  | TabAll => map IGrouped (groupedProps (allProps st))
  | TabArbitrage => map IOpp (arbitrage st)
  | TabValue => map IOpp (valueBets st)
  | TabConsensus => map IOpp (consensusBets st)
  | TabDiscrepancies => map IOpp (discrepancies st)
  | TabBestOdds => map IOpp (bestOdds st)
  end.

(** The predicates of the four [filter] calls, and when each is run. *)
Definition search_active (st : State) : bool := negb (String.eqb (searchQuery st) "").

Definition search_keep (st : State) (i : item) : bool :=
  includes (toLowerCase (item_player i)) (toLowerCase (searchQuery st)).

Definition propType_active (st : State) : bool :=
  negb (String.eqb (selectedPropType st) "all").

Definition propType_keep (st : State) (i : item) : bool :=
  strict_eq_str (propType_of i) (selectedPropType st).

Definition favorites_keep (st : State) (i : item) : bool :=
  isFavorite st (item_player i) (template (propType_of i)).

Definition book_tab (tab : Tab) : bool :=
  match tab with
  | TabValue | TabConsensus | TabBestOdds => true
  | _ => false
  end.

Definition book_active (st : State) : bool :=
  negb (String.eqb (selectedBook st) "all") && book_tab (activeTab st).

Definition book_keep (st : State) (i : item) : bool :=
  strict_eq_str (item_best_book i) (selectedBook st).

Definition filter_if {A} (active : bool) (keep : A -> bool) (data : list A) : list A :=
  if active then List.filter keep data else data.

(** The four filter steps, in the order of the code. *)
Definition filtered (st : State) (data : list item) : list item :=
  let data := filter_if (search_active st) (search_keep st) data in
  let data := filter_if (propType_active st) (propType_keep st) data in
  let data := filter_if (showFavorites st) (favorites_keep st) data in
  filter_if (book_active st) (book_keep st) data.

Definition sorted `{Collator} (st : State) (data : list item) : list item :=
  match tab_compare (activeTab st) (sortBy st) with
  | Some cmp => array_sort cmp data
  | None => data
  end.

(** The value of the memo. *)
Definition filteredData `{Collator} (st : State) : list item :=
  sorted st (filtered st (base_data st)).

(** ** The rows on screen *)

(** The row filter of the "All Props" view: a row returns [null] when the
    selected book has no entry for it. *)
Definition allProps_row_shown (selectedBook : string) (prop : Grouped.t) : bool :=
  negb (String.eqb selectedBook "DraftKings"
        && negb (bool_decide (is_Some (Grouped.books prop !! "draftkings"))))
  && negb (String.eqb selectedBook "FanDuel"
           && negb (bool_decide (is_Some (Grouped.books prop !! "fanduel")))).

Definition item_row_shown (selectedBook : string) (i : item) : bool :=
  match i with
  | IGrouped prop => allProps_row_shown selectedBook prop
  | IOpp _ => true
  end.

(** The rows that the content area renders from [filteredData]: none while a
    scrape is running; every element on the five opportunity tabs; on the
    "all" tab the elements that pass the row filter.  (Only grouped props
    reach the "All Props" view.) *)
Definition renderedRows `{Collator} (st : State) : list item :=
  if isScraping st then []
  else
    match activeTab st with
    | TabAll => List.filter (item_row_shown (selectedBook st)) (filteredData st)
    | _ => filteredData st
    end.

(** ** Arrays as shared objects *)

(** The arrays of the component live in a store; a variable holds the location
    of its array.  [filter] and the spread [[...data]] make a new array,
    [sort] reorders the array it is called on. *)
Abbreviation store := (gmap nat (list item)).

Definition M (A : Type) : Type := store -> A * store.

#[global] Instance M_ret : MRet M := fun A a σ => (a, σ).
#[global] Instance M_bind : MBind M :=
  fun A B k m σ => let (a, σ') := m σ in k a σ'.

Definition array_new (l : list item) : M nat :=
  fun σ => let r := fresh (dom σ) in (r, <[r := l]> σ).

Definition array_get (r : nat) : M (list item) :=
  fun σ => (default [] (σ !! r), σ).

Definition array_filter (keep : item -> bool) (r : nat) : M nat :=
  l ← array_get r; array_new (List.filter keep l).

Definition array_spread (r : nat) : M nat :=
  l ← array_get r; array_new l.

Definition array_sort_in_place (cmp : item -> item -> num) (r : nat) : M nat :=
  fun σ => (r, alter (array_sort cmp) r σ).

(** Where the arrays read by [filteredData] live. *)
Record Refs : Type := mkRefs {
  groupedPropsRef : nat;
  arbitrageRef : nat;
  valueBetsRef : nat;
  consensusBetsRef : nat;
  discrepanciesRef : nat;
  bestOddsRef : nat
}.

Definition base_ref (refs : Refs) (tab : Tab) : nat :=
  match tab with
  | TabAll => groupedPropsRef refs
  | TabArbitrage => arbitrageRef refs
  | TabValue => valueBetsRef refs
  | TabConsensus => consensusBetsRef refs
  | TabDiscrepancies => discrepanciesRef refs
  | TabBestOdds => bestOddsRef refs
  end.

Definition filter_step (active : bool) (keep : item -> bool) (data : nat) : M nat :=
  if active then array_filter keep data else mret data.

(** The body of the memo [filteredData], statement by statement; the result
    is the location held by [data] at the [return]. *)
Definition filteredData_run `{Collator} (refs : Refs) (st : State) : M nat :=
  let data := base_ref refs (activeTab st) in
  data ← filter_step (search_active st) (search_keep st) data;
  data ← filter_step (propType_active st) (propType_keep st) data;
  data ← filter_step (showFavorites st) (favorites_keep st) data;
  data ← filter_step (book_active st) (book_keep st) data;
  match tab_compare (activeTab st) (sortBy st) with
  | Some cmp => copy ← array_spread data; array_sort_in_place cmp copy
  | None => mret data
  end.

(** The store holds the collections of the state at the given locations. *)
Definition store_holds (σ : store) (refs : Refs) (st : State) : Prop :=
  σ !! groupedPropsRef refs = Some (map IGrouped (groupedProps (allProps st)))
  ∧ σ !! arbitrageRef refs = Some (map IOpp (arbitrage st))
  ∧ σ !! valueBetsRef refs = Some (map IOpp (valueBets st))
  ∧ σ !! consensusBetsRef refs = Some (map IOpp (consensusBets st))
  ∧ σ !! discrepanciesRef refs = Some (map IOpp (discrepancies st))
  ∧ σ !! bestOddsRef refs = Some (map IOpp (bestOdds st)).

(** No filter step runs. *)
Definition no_filter_active (st : State) : bool :=
  negb (search_active st) && negb (propType_active st)
  && negb (showFavorites st) && negb (book_active st).

(** ** Notions used to state the properties *)

(** The last quote, in the order of the input, of a given key and book. *)
Definition quote_for (key book : string) (prop : Quote.t) : bool :=
  String.eqb (quote_key prop) key
  && String.eqb (toLowerCase (Quote.sportsbook prop)) book.

Definition last_quote_for (key book : string) (allProps : list Quote.t)
  : option Quote.t :=
  List.find (quote_for key book) (rev allProps).

(** [prop] is the first quote of [allProps] that bears the key [key]. *)
Definition first_quote_of (key : string) (allProps : list Quote.t) (prop : Quote.t)
  : Prop :=
  exists before after,
    allProps = before ++ prop :: after
    /\ quote_key prop = key
    /\ Forall (fun prop' => quote_key prop' <> key) before.

(** [g] has the player, prop type, game and team of the quote [prop]. *)
Definition seeded_from (g : Grouped.t) (prop : Quote.t) : Prop :=
  Grouped.player g = Quote.player prop
  /\ Grouped.propType g = Quote.prop_type prop
  /\ Grouped.game g = Quote.game prop
  /\ Grouped.team g = Quote.team prop.

(** [g] is what grouping must make of the quotes of its key: seeded from the
    first of them, and holding for each book the entry of the last of them. *)
Definition grouped_entry_ok (allProps : list Quote.t) (g : Grouped.t) : Prop :=
  (exists prop, first_quote_of (grouped_key g) allProps prop /\ seeded_from g prop)
  /\ forall book,
       Grouped.books g !! book
       = book_entry <$> last_quote_for (grouped_key g) book allProps.

(** A collection in ascending order of player name, for the collation of the
    host. *)
Definition player_sorted `{Collator} (data : list item) : Prop :=
  Sorted (fun a b => (localeCompare (item_player a) (item_player b) <= 0)%Z) data.

(** [setSelectedBook(book)] *)
Definition setSelectedBook (book : string) (st : State) : State :=
  mkState (activeTab st) (allProps st) (arbitrage st) (discrepancies st)
    (bestOdds st) (valueBets st) (consensusBets st) (loading st)
    (isScraping st) (searchQuery st) (selectedPropType st) book
    (sortBy st) (showFavorites st) (favorites st) (error st) (localStorage st).

(** ** Sample data *)

(** The state of the component when it mounts. *)
Definition initial_state : State :=
  mkState TabArbitrage [] [] [] [] [] [] true false "" "all" "all" "profit"
    false [] Null ∅.

(** A collation by code units, standing for the host's in the examples. *)
Definition codeUnitCollator : Collator :=
  fun a b => match String.compare a b with Lt => (-1)%Z | Eq => 0%Z | Gt => 1%Z end.

(** The two quotes of the grouping example, and their group. *)
Definition sample_dk : Quote.t :=
  Quote.mk "A" "points" Absent Absent "DraftKings"
    (Val (ofZ 20)) (Val (ofZ (-110))) (Val (ofZ (-110))).

Definition sample_fd : Quote.t :=
  Quote.mk "A" "points" Absent Absent "FanDuel"
    (Val (ofZ 21)) (Val (ofZ (-105))) (Val (ofZ (-115))).

Definition sample_group : Grouped.t :=
  Grouped.mk "A" "points" Absent Absent
    (<["fanduel" := book_entry sample_fd]> (<["draftkings" := book_entry sample_dk]> ∅)).

(** Two arbitrage records, the first without [profit_percent], and a state
    showing them on the arbitrage tab, sorted by value. *)
Definition sample_arb_missing : Opp.t :=
  Opp.mk "B" (Val "points") Absent Absent Absent Absent Absent
    (Val (ofZ (-110))) (Val (ofZ 120)).

Definition sample_arb_53 : Opp.t :=
  Opp.mk "A" (Val "points") Absent (Val (Fin (53 # 10))) Absent Absent Absent
    (Val (ofZ (-105))) (Val (ofZ 125)).

Definition sample_arb_state : State :=
  mkState TabArbitrage [] [sample_arb_missing; sample_arb_53] [] [] [] []
    false false "" "all" "all" "profit" false [] Null ∅.

(** An arbitrage record with a given player and profit. *)
Definition sample_arb (player : string) (profit : Q) : Opp.t :=
  Opp.mk player (Val "points") Absent (Val (Fin profit)) Absent Absent Absent
    (Val (ofZ (-105))) (Val (ofZ 125)).

Definition sample_ranked_state : State :=
  mkState TabArbitrage []
    [sample_arb "A" (21 # 10); sample_arb "B" (53 # 10); sample_arb "C" (4 # 10)]
    [] [] [] [] false false "" "all" "all" "profit" false [] Null ∅.

(** Two value bets in the order of their players, and a state showing them on
    the value tab with every filter at its default, sorted by player. *)
Definition sample_value_a : Opp.t :=
  Opp.mk "Adams" (Val "points") (Val "DraftKings") Absent (Val (Fin (21 # 10)))
    Absent Absent Absent Absent.

Definition sample_value_b : Opp.t :=
  Opp.mk "Brown" (Val "rebounds") (Val "FanDuel") Absent (Val (Fin (53 # 10)))
    Absent Absent Absent Absent.

Definition sample_value_state : State :=
  mkState TabValue [] [] [] [] [sample_value_a; sample_value_b] []
    false false "" "all" "all" "player" false [] Null ∅.

(** A state showing the "all" tab with a single FanDuel quote. *)
Definition sample_all_state : State :=
  mkState TabAll [sample_fd] [] [] [] [] []
    false false "" "all" "all" "player" false [] Null ∅.

(** A store holding the collections of a state at the locations 0 to 5. *)
Definition sample_refs : Refs := mkRefs 0 1 2 3 4 5.

Definition store_of (st : State) : store :=
  <[0 := map IGrouped (groupedProps (allProps st))]>
    (<[1 := map IOpp (arbitrage st)]>
       (<[2 := map IOpp (valueBets st)]>
          (<[3 := map IOpp (consensusBets st)]>
             (<[4 := map IOpp (discrepancies st)]>
                (<[5 := map IOpp (bestOdds st)]> ∅))))).

(** A batch whose arbitrage request answers with a non-success status. *)
Definition sample_failed_batch : Batch :=
  mkBatch (Normal (mkResponse true (Normal [sample_dk; sample_fd])))
    (Normal (mkResponse false (Normal [])))
    (Normal (mkResponse true (Normal [])))
    (Normal (mkResponse true (Normal [])))
    (Normal (mkResponse true (Normal [sample_value_a])))
    (Normal (mkResponse true (Normal []))).

(** ** Further parts of the component *)

(** [a >= b] *)
Definition num_ge (a b : num) : bool :=
  match a, b with
  | NaN, _ | _, NaN => false
  | Fin x, Fin y => match (x ?= y)%Q with Lt => false | _ => true end
  | PInf, _ | _, NInf => true
  | _, _ => false
  end.

(** Setters of the state cells written by the functions below. *)
Definition setFavorites (favs : list string) (st : State) : State :=
  mkState (activeTab st) (allProps st) (arbitrage st) (discrepancies st)
    (bestOdds st) (valueBets st) (consensusBets st) (loading st)
    (isScraping st) (searchQuery st) (selectedPropType st) (selectedBook st)
    (sortBy st) (showFavorites st) favs (error st) (localStorage st).

Definition setError (e : field string) (st : State) : State :=
  mkState (activeTab st) (allProps st) (arbitrage st) (discrepancies st)
    (bestOdds st) (valueBets st) (consensusBets st) (loading st)
    (isScraping st) (searchQuery st) (selectedPropType st) (selectedBook st)
    (sortBy st) (showFavorites st) (favorites st) e (localStorage st).

Definition setIsScraping (b : bool) (st : State) : State :=
  mkState (activeTab st) (allProps st) (arbitrage st) (discrepancies st)
    (bestOdds st) (valueBets st) (consensusBets st) (loading st)
    b (searchQuery st) (selectedPropType st) (selectedBook st)
    (sortBy st) (showFavorites st) (favorites st) (error st) (localStorage st).

Definition setSearchQuery (q : string) (st : State) : State :=
  mkState (activeTab st) (allProps st) (arbitrage st) (discrepancies st)
    (bestOdds st) (valueBets st) (consensusBets st) (loading st)
    (isScraping st) q (selectedPropType st) (selectedBook st)
    (sortBy st) (showFavorites st) (favorites st) (error st) (localStorage st).

(** *** Favorites at mount *)

(** The part of the mount effect that reads the saved favorites:
    [if (savedFavorites) setFavorites(JSON.parse(savedFavorites))].  (A saved
    JSON text is never the empty string.) *)
Definition loadFavorites (st : State) : State :=
  match localStorage st !! "favorites" with
  | Some savedFavorites => setFavorites savedFavorites st
  | None => st
  end.

(** A new session: every cell has its initial value, the storage of the
    browser is what the last session left. *)
Definition remount (st : State) : State :=
  mkState TabArbitrage [] [] [] [] [] [] true false "" "all" "all" "profit"
    false [] Null (localStorage st).

(** *** The manual refresh: [handleFullRefresh] *)

(** The component with the auto-refresh switch. *)
Record App : Type := mkApp {
  app_state : State;
  autoRefresh : bool
}.

(** The settled POST to the scraper: the [ok] flag and, from the parsed body,
    its [error] property. *)
Record ScrapeResponse : Type := mkScrapeResponse {
  scrape_ok : bool;
  scrape_error : completion (field string)
}.

Definition scrape_default : string := "Failed to start scraper process.".

(** The [try] block up to the call of [fetchAllData]. *)
Definition scrape_try (scrape : completion ScrapeResponse) : completion unit :=
  try! scrapeRes <- scrape;
  if negb (scrape_ok scrapeRes)
  then
    let errData_error :=
      match scrape_error scrapeRes with
      | Normal e => e
      | Throw _ => Val scrape_default
      end in
    Throw (if truthy_str errData_error then template errData_error
           else scrape_default)
  else Normal tt.

Definition handleFullRefresh (scrape : completion ScrapeResponse) (b : Batch)
  (app : App) : App :=
  let st := app_state app in
  if loading st || isScraping st then app
  else
    let st := setError Null (setIsScraping true st) in
    let st :=
      match scrape_try scrape with
      | Normal _ => fetchAllData b st
      | Throw message => setError (Val message) st
      end in
    mkApp (setIsScraping false st) false.

(** The auto-refresh effect sets its interval when the switch is on, a date
    is selected and no scrape is running; the date is a parameter here. *)
Definition interval_set (hasDate : bool) (app : App) : bool :=
  autoRefresh app && hasDate && negb (isScraping (app_state app)).

(** *** The prop-type options: the memo [propTypes] *)

Definition field_eqb (a b : field string) : bool :=
  match a, b with
  | Absent, Absent | Null, Null => true
  | Val x, Val y => String.eqb x y
  | _, _ => false
  end.

(** [types.add(v)] on a [Set], kept in insertion order. *)
Definition set_add (types : list (field string)) (v : field string)
  : list (field string) :=
  if existsb (field_eqb v) types then types else types ++ [v].

(** The comparison of [sort()] without a comparator: [undefined] last, the
    rest by their texts, code unit by code unit. *)
Definition default_compare (a b : field string) : num :=
  match a, b with
  | Absent, Absent => Fin 0
  | Absent, _ => Fin 1
  | _, Absent => Fin (-1)
  | _, _ =>
      match String.compare (template a) (template b) with
      | Lt => Fin (-1)
      | Eq => Fin 0
      | Gt => Fin 1
      end
  end.

Definition propTypes_set (st : State) : list (field string) :=
  let types := fold_left (fun types prop => set_add types (Val (Quote.prop_type prop)))
                 (allProps st) [] in
  let types := fold_left (fun types prop => set_add types (Opp.prop_type prop))
                 (valueBets st) types in
  fold_left (fun types prop => set_add types (Opp.prop_type prop))
    (consensusBets st) types.

Definition propTypes (st : State) : list (field string) :=
  Val "all" :: array_sort default_compare (propTypes_set st).

(** *** Odds on screen *)

(** What [formatOdds] returns: the text "-", the text of the number behind a
    "+", or the number itself. *)
Inductive OddsText : Type :=
| OddsDash
| OddsPlus (n : num)
| OddsPlain (n : num).

Definition formatOdds (odds : field num) : OddsText :=
  match odds with
  | Absent | Null => OddsDash
  | Val n => if gt n (Fin 0) then OddsPlus n else OddsPlain n
  end.

Definition getOddsColor (odds : field num) : string :=
  match odds with
  | Absent | Null => "text-gray-400"
  | Val n => if gt n (Fin 0) then "text-green-400" else "text-red-400"
  end.

(** *** The best-side badges of the "All Props" view *)






(** *** The footer *)

(** [arbitrage.reduce((sum, arb) => sum + arb.profit_percent, 0)] *)
Definition totalArbProfit (st : State) : num :=
  fold_left (fun sum arb => add sum (toNumber (Opp.profit_percent arb)))
    (arbitrage st) (Fin 0).

(** [new Set(allProps.map(p => p.player)).size] *)
Definition uniquePlayers (st : State) : nat :=
  length (first_seen (map Quote.player (allProps st))).

(** *** The arbitrage view *)

(** [toUpperCase], on the ASCII letters. *)
Definition upper_ascii (c : ascii) : ascii :=
  let n := nat_of_ascii c in
  if (97 <=? n)%nat && (n <=? 122)%nat then ascii_of_nat (n - 32) else c.

Fixpoint toUpperCase (s : string) : string :=
  match s with
  | EmptyString => EmptyString
  | String c s' => String (upper_ascii c) (toUpperCase s')
  end.

(** What a card of the arbitrage view shows of its record.  The numbers that
    the card prints with [toFixed(2)] are kept as numbers. *)
Record ArbRow : Type := mkArbRow {
  row_star : bool;
  row_propType : string;
  row_profit : num;
  row_over : OddsText;
  row_under : OddsText;
  row_stakes : Stakes
}.

(** A method call on a property that is [undefined] or [null] throws a
    TypeError; the model keeps the name of the method as its message. *)
Definition method_on {A} (method : string) (v : field A) : completion A :=
  match v with
  | Val a => Normal a
  | _ => Throw ("TypeError: " +:+ method)
  end.

(** The callback of [filteredData.map] in the arbitrage view.  An element
    without [prop_type], as a grouped prop would be, fails at
    [arb.prop_type.toUpperCase()]. *)
Definition arbitrage_row (st : State) (arb : item) : completion ArbRow :=
  match arb with
  | IGrouped _ => Throw ("TypeError: " +:+ "toUpperCase")
  | IOpp arb =>
      try! stakes <- calculateStakes (Opp.over_odds arb) (Opp.under_odds arb) Absent;
      let star := isFavorite st (Opp.player arb) (template (Opp.prop_type arb)) in
      try! propType <- method_on "toUpperCase" (Opp.prop_type arb);
      try! profit <- method_on "toFixed" (Opp.profit_percent arb);
      Normal (mkArbRow star (toUpperCase propType) profit
                (formatOdds (Opp.over_odds arb)) (formatOdds (Opp.under_odds arb))
                stakes)
  end.

Fixpoint map_completion {A B} (f : A -> completion B) (l : list A)
  : completion (list B) :=
  match l with
  | [] => Normal []
  | x :: l' =>
      try! y <- f x;
      try! ys <- map_completion f l';
      Normal (y :: ys)
  end.

Definition arbitrageView `{Collator} (st : State) : completion (list ArbRow) :=
  map_completion (arbitrage_row st) (filteredData st).

(** *** The pipeline of the earlier version of the component *)

(** [filteredData] as the earlier version of the component has it: four
    tabs, no sportsbook filter. *)
Definition base_data_v1 (st : State) : list item :=
  match activeTab st with
  | TabAll => map IGrouped (groupedProps (allProps st))
  | TabArbitrage => map IOpp (arbitrage st)
  | TabDiscrepancies => map IOpp (discrepancies st)
  | _ => map IOpp (bestOdds st)
  end.

Definition filtered_v1 (st : State) (data : list item) : list item :=
  let data := filter_if (search_active st) (search_keep st) data in
  let data := filter_if (propType_active st) (propType_keep st) data in
  filter_if (showFavorites st) (favorites_keep st) data.

Definition tab_compare_v1 `{Collator} (tab : Tab) (sortBy : string)
  : option (item -> item -> num) :=
  let profit := String.eqb sortBy "profit" in
  match tab with
  | TabArbitrage => Some (fun a b =>
      if profit
      then sub (toNumber (item_rank Opp.profit_percent b))
               (toNumber (item_rank Opp.profit_percent a))
      else by_player a b)
  | TabBestOdds => Some (fun a b =>
      if profit
      then sub (toNumber (item_rank Opp.odds_difference b))
               (toNumber (item_rank Opp.odds_difference a))
      else by_player a b)
  | TabDiscrepancies => Some (fun a b =>
      if profit
      then sub (toNumber (item_rank Opp.line_difference b))
               (toNumber (item_rank Opp.line_difference a))
      else by_player a b)
  | _ => None
  end.

Definition filteredData_v1 `{Collator} (st : State) : list item :=
  let data := filtered_v1 st (base_data_v1 st) in
  match tab_compare_v1 (activeTab st) (sortBy st) with
  | Some cmp => array_sort cmp data
  | None => data
  end.

(** ** Further notions used to state the properties *)

(** The number a tab ranks its records by when sorted by value. *)
Definition tab_rank (tab : Tab) (i : item) : num :=
  match tab with
  | TabAll => Fin 0
  | TabArbitrage => toNumber (item_rank Opp.profit_percent i)
  | TabValue => or_zero (item_rank Opp.edge_percent i)
  | TabConsensus | TabBestOdds => toNumber (item_rank Opp.odds_difference i)
  | TabDiscrepancies => toNumber (item_rank Opp.line_difference i)
  end.

(** The records of a given finite rank. *)
Definition has_rank (tab : Tab) (r : Q) (i : item) : bool :=
  match tab_rank tab i with
  | Fin q => Qeq_bool q r
  | _ => false
  end.

(** Every active filter keeps the element. *)
Definition passes_filters (st : State) (i : item) : bool :=
  (negb (search_active st) || search_keep st i)
  && (negb (propType_active st) || propType_keep st i)
  && (negb (showFavorites st) || favorites_keep st i)
  && (negb (book_active st) || book_keep st i).

(** A name without a "-". *)
Definition no_dash (s : string) : bool := negb (includes s "-").

(** The value of finite American odds as a rational multiplier. *)
Definition multiplier_of (odds : Z) : Q :=
  match decimalMultiplier (Val (ofZ odds)) with
  | Fin q => q
  | _ => 0
  end.

(** ** The stake split on binary64 numbers *)

(** [calculateStakes] on the numbers of the language: IEEE 754 binary64, each
    operation of lines 302-312 rounded to nearest. *)
Module Double.

Local Open Scope float_scope.

(** The double of an integer literal of less than 2^63 in absolute value. *)
Definition ofZ (z : Z) : float :=
  match z with
  | Z0 => 0
  | Zpos _ => PrimFloat.of_uint63 (Uint63.of_Z z)
  | Zneg p => - PrimFloat.of_uint63 (Uint63.of_Z (Zpos p))
  end.

(** [ToNumber] on a numeric field: [undefined] is NaN and [null] is 0. *)
Definition toNumber (v : field float) : float :=
  match v with
  | Absent => PrimFloat.nan
  | Null => 0
  | Val x => x
  end.

Record Stakes : Type := mkStakes {
  stakeOver : float;
  stakeUnder : float;
  profit : float
}.

(** [odds > 0 ? (odds / 100) + 1 : (100 / Math.abs(odds)) + 1] *)
Definition decimalMultiplier (odds : field float) : float :=
  if 0 <? toNumber odds
  then toNumber odds / 100 + 1
  else 100 / PrimFloat.abs (toNumber odds) + 1.

(** [calculateStakes(overOdds, underOdds, totalStake = 100)] *)
Definition calculateStakes (overOdds underOdds totalStake : field float)
  : completion Stakes :=
  let totalStake := match totalStake with Absent => 100 | v => toNumber v end in
  if is_null overOdds || is_null underOdds
  then Normal (mkStakes 0 0 0)
  else
    let decOver := decimalMultiplier overOdds in
    let decUnder := decimalMultiplier underOdds in
    let stakeOver := totalStake / (1 + decOver / decUnder) in
    let stakeUnder := totalStake - stakeOver in
    let profit := stakeOver * decOver - totalStake in
    Normal (mkStakes stakeOver stakeUnder profit).

(** What a split pays when the over wins, and when the under wins. *)
Definition payoutOver (overOdds : field float) (r : Stakes) : float :=
  stakeOver r * decimalMultiplier overOdds.

Definition payoutUnder (underOdds : field float) (r : Stakes) : float :=
  stakeUnder r * decimalMultiplier underOdds.

(** A number that is neither an infinity nor NaN. *)
Definition finite (x : float) : bool := PrimFloat.abs x <? PrimFloat.infinity.

(** Two numbers no further apart than [tol]. *)
Definition within (tol x y : float) : bool := PrimFloat.abs (x - y) <=? tol.

(** The tolerance of the statements below: 2^-40, less than 1e-12. *)
Definition tolerance : float := 0x1p-40.

End Double.

(** American odds as the books quote them: an integer of absolute value 100
    or more; the statements on doubles go up to [max_quoted]. *)
Definition max_quoted : Z := 1000.

Definition quoted (odds : Z) : bool :=
  (100 <=? Z.abs odds)%Z && (Z.abs odds <=? max_quoted)%Z.

(** The probability that odds imply, as an exact rational:
    100 / (odds + 100) for positive odds, |odds| / (|odds| + 100) otherwise.
    It is the reciprocal of the decimal multiplier. *)
Definition implied_probability (odds : Z) : Q :=
  if (0 <? odds)%Z then 100 # Z.to_pos (odds + 100)
  else Z.abs odds # Z.to_pos (Z.abs odds + 100).

(** The comparison of the sum of the two implied probabilities with 1, in
    integers. *)
Definition margin_sign (o u : Z) : comparison :=
  if (0 <? o)%Z
  then if (0 <? u)%Z then (10000 ?= o * u)%Z else (- u ?= o)%Z
  else if (0 <? u)%Z then (- o ?= u)%Z else (o * u ?= 10000)%Z.

(** A test on every integer from [lo], [n] of them. *)
Fixpoint forall_from (n : nat) (lo : Z) (p : Z -> bool) : bool :=
  match n with
  | O => true
  | S n' => p lo && forall_from n' (lo + 1)%Z p
  end.

(** A test on all quoted odds, of both signs. *)
Definition forall_quoted (p : Z -> bool) : bool :=
  forall_from (Z.to_nat (max_quoted - 99)) 100%Z (fun k => p k && p (- k)%Z).

(** The split of the arbitrage view, which passes no stake (line 699). *)
Definition split_of (o u : Z) : completion Double.Stakes :=
  Double.calculateStakes (Val (Double.ofZ o)) (Val (Double.ofZ u)) Absent.

(** The two payouts of a split are finite and within the tolerance of each
    other, and so is the profit of the payout of the under less the stake. *)
Definition balanced_at (o u : Z) (r : Double.Stakes) : bool :=
  let pO := Double.payoutOver (Val (Double.ofZ o)) r in
  let pU := Double.payoutUnder (Val (Double.ofZ u)) r in
  Double.finite pO && Double.finite pU
  && Double.within Double.tolerance pO pU
  && Double.within Double.tolerance (Double.profit r) (pU - 100)%float.

(** The stakes add up to the stake of 100. *)
Definition sum_at (r : Double.Stakes) : bool :=
  (Double.stakeOver r + Double.stakeUnder r =? 100)%float.

(** Each stake is strictly between 0 and 100. *)
Definition between_at (r : Double.Stakes) : bool :=
  (0 <? Double.stakeOver r)%float && (Double.stakeOver r <? 100)%float
  && (0 <? Double.stakeUnder r)%float && (Double.stakeUnder r <? 100)%float.

(** The profit has the sign that the implied probabilities give it. *)
Definition sign_at (c : comparison) (r : Double.Stakes) : bool :=
  match c with
  | Lt => (0 <? Double.profit r)%float
  | Gt => (Double.profit r <? 0)%float
  | Eq => Double.within Double.tolerance (Double.profit r) 0%float
  end.

Definition split_check (o u : Z) : bool :=
  match split_of o u with
  | Normal r =>
      balanced_at o u r && sum_at r && between_at r
      && sign_at (margin_sign o u) r
  | Throw _ => false
  end.

(** The net payouts per unit of odds [k] and [-k] multiply to 1, within the
    tolerance. *)
Definition opposite_check (k : Z) : bool :=
  Double.within Double.tolerance
    ((Double.decimalMultiplier (Val (Double.ofZ k)) - 1)
     * (Double.decimalMultiplier (Val (Double.ofZ (- k))) - 1))%float
    1%float.

(** ** Further samples *)

(** A string of ASCII characters only. *)
Fixpoint ascii_only (s : string) : bool :=
  match s with
  | EmptyString => true
  | String c s' => (nat_of_ascii c <? 128)%nat && ascii_only s'
  end.

(** A session with two favorites. *)
Definition sample_favorites_state : State :=
  setFavorites ["A-points"; "B-points"] initial_state.

(** Four quotes of two players: both books on A's points, and one book each
    on A's rebounds and B's points. *)
Definition sample_four_quotes : list Quote.t :=
  [ sample_dk; sample_fd;
    Quote.mk "A" "rebounds" Absent Absent "DraftKings"
      (Val (ofZ 8)) (Val (ofZ (-120))) (Val (ofZ 100));
    Quote.mk "B" "points" Absent Absent "FanDuel"
      (Val (ofZ 25)) (Val (ofZ 105)) (Val (ofZ (-125))) ].

Definition sample_four_state : State :=
  mkState TabAll sample_four_quotes [] [] [] [] []
    false false "" "all" "all" "player" false [] Null ∅.

(** Five arbitrage records, two pairs of them with the same profit, on the
    arbitrage tab sorted by value. *)
Definition sample_tied_state : State :=
  mkState TabArbitrage []
    [sample_arb "A" (21 # 10); sample_arb "B" (53 # 10); sample_arb "C" (21 # 10);
     sample_arb "D" (4 # 10); sample_arb "E" (53 # 10)]
    [] [] [] [] false false "" "all" "all" "profit" false [] Null ∅.

(** * Properties *)

(** ** Numbers *)

Section NumFacts.

Local Open Scope Q_scope.

Lemma Qsign_pos (q : Q) : 0 < q -> Qsign q = Pos.
Proof.
  intros Hq. unfold Qsign.
  assert (E : (q ?= 0) = Gt) by (apply Qgt_alt; exact Hq).
  now rewrite E.
Qed.

Lemma Qsign_neg (q : Q) : q < 0 -> Qsign q = Neg.
Proof.
  intros Hq. unfold Qsign.
  assert (E : (q ?= 0) = Lt) by (apply Qlt_alt; exact Hq).
  now rewrite E.
Qed.

Lemma Qsign_zero (q : Q) : q == 0 -> Qsign q = Zero.
Proof.
  intros Hq. unfold Qsign.
  assert (E : (q ?= 0) = Eq) by (apply Qeq_alt; exact Hq).
  now rewrite E.
Qed.

Lemma gt_fin_zero_true (q : Q) : 0 < q -> gt (Fin q) (Fin 0) = true.
Proof.
  intros Hq. unfold gt.
  assert (E : (q ?= 0) = Gt) by (apply Qgt_alt; exact Hq).
  now rewrite E.
Qed.

Lemma gt_fin_zero_false (q : Q) : q <= 0 -> gt (Fin q) (Fin 0) = false.
Proof.
  intros Hq. unfold gt. destruct (q ?= 0) eqn:E; try reflexivity.
  exfalso. apply (Qlt_irrefl 0).
  apply Qlt_le_trans with q; [apply Qgt_alt; exact E | assumption].
Qed.

Lemma div_fin_pos (x y : Q) : 0 < y -> div (Fin x) (Fin y) = fin (x / y).
Proof.
  intros Hy. unfold div. now rewrite (Qsign_pos y Hy).
Qed.

Lemma Qabs_pos_of_nonzero (o : Q) : ~ o == 0 -> 0 < Qabs o.
Proof.
  intros Ho.
  destruct (Qle_lt_or_eq _ _ (Qabs_nonneg o)) as [H | H]; [assumption |].
  exfalso. apply Ho. symmetry in H.
  revert H. apply Qabs_case; intros _ H; [assumption |].
  rewrite <- (Qopp_involutive o), H. reflexivity.
Qed.

Lemma Qlt_one_plus_one (x : Q) : 0 < x -> 1 < x + 1.
Proof.
  intros Hx. rewrite <- (Qplus_0_l 1) at 1.
  apply Qplus_lt_le_compat; [assumption | apply Qle_refl].
Qed.

Lemma Qdiv_pos (x y : Q) : 0 < x -> 0 < y -> 0 < x / y.
Proof.
  intros Hx Hy. apply Qlt_shift_div_l; [assumption | now rewrite Qmult_0_l].
Qed.

(** The multiplier of non-zero finite odds is a finite number above 1. *)
Lemma decimalMultiplier_finite (o : Q) :
  ~ o == 0 ->
  exists d, decimalMultiplier (Val (Fin o)) = Fin d /\ 1 < d.
Proof.
  intros Ho. unfold decimalMultiplier. cbn [toNumber].
  destruct (Qlt_le_dec 0 o) as [Hpos | Hle].
  - rewrite (gt_fin_zero_true o Hpos).
    rewrite div_fin_pos by reflexivity.
    eexists. split; [reflexivity |].
    rewrite !Qred_correct.
    apply Qlt_one_plus_one, Qdiv_pos; [assumption | reflexivity].
  - rewrite (gt_fin_zero_false o Hle).
    pose proof (Qabs_pos_of_nonzero o Ho) as Habs.
    cbn [abs]. unfold fin.
    rewrite div_fin_pos by now rewrite Qred_correct.
    eexists. split; [reflexivity |].
    rewrite !Qred_correct.
    apply Qlt_one_plus_one, Qdiv_pos; [reflexivity | assumption].
Qed.

End NumFacts.

(** ** The stake split *)

Example decimalMultiplier_150 :
  decimalMultiplier (Val (ofZ 150)) = Fin (5 # 2)
  /\ decimalMultiplier (Val (ofZ (-150))) = Fin (5 # 3).
Proof. split; vm_compute; reflexivity. Qed.

(** *** On binary64 numbers *)

(** A test that passes on a range of integers holds of each of them. *)
Lemma forall_from_spec (n : nat) (lo : Z) (p : Z -> bool) :
  forall_from n lo p = true ->
  forall k, (lo <= k < lo + Z.of_nat n)%Z -> p k = true.
Proof.
  revert lo. induction n as [| n IH]; intros lo H k Hk; [lia |].
  cbn [forall_from] in H. apply andb_true_iff in H as [H0 H1].
  destruct (Z.eq_dec k lo) as [-> | Hne]; [exact H0 |].
  apply (IH (lo + 1)%Z H1). lia.
Qed.

Lemma forall_quoted_spec (p : Z -> bool) :
  forall_quoted p = true -> forall o, quoted o = true -> p o = true.
Proof.
  unfold forall_quoted, quoted, max_quoted. intros H o Ho.
  apply andb_true_iff in Ho as [Hlo Hhi].
  apply Z.leb_le in Hlo, Hhi.
  assert (Hk : p (Z.abs o) && p (- Z.abs o)%Z = true).
  { apply (forall_from_spec _ _ _ H). lia. }
  apply andb_true_iff in Hk as [Hp Hn].
  destruct (Z.abs_spec o) as [[_ E] | [_ E]]; rewrite E in Hp, Hn.
  - exact Hp.
  - rewrite Z.opp_involutive in Hn. exact Hn.
Qed.

(** [margin_sign] is the comparison of the sum of the implied probabilities
    with 1. *)
Lemma margin_sign_spec (o u : Z) :
  (implied_probability o + implied_probability u ?= 1)%Q = margin_sign o u.
Proof.
  assert (C : forall a b c d : Z,
             ((a < b)%Z <-> (c < d)%Z) -> ((a = b)%Z <-> (c = d)%Z) ->
             (a ?= b)%Z = (c ?= d)%Z).
  { intros a b c d Hlt Heq.
    destruct (Z.compare_spec a b), (Z.compare_spec c d); try reflexivity; lia. }
  unfold implied_probability, margin_sign, Qcompare, Qplus.
  destruct (Z.ltb_spec 0 o) as [Ho | Ho], (Z.ltb_spec 0 u) as [Hu | Hu];
    cbn [Qnum Qden];
    rewrite ?Pos2Z.inj_mul, ?Z2Pos.id by lia;
    rewrite ?(Z.abs_neq o), ?(Z.abs_neq u) by lia;
    apply C; nia.
Qed.

(** The split of every pair of quoted odds passes the four tests: by
    evaluation of the double-precision arithmetic on each pair. *)
Lemma split_check_quoted :
  forall_quoted (fun o => forall_quoted (fun u => split_check o u)) = true.
Proof. vm_compute. reflexivity. Qed.

Lemma split_check_holds (o u : Z) :
  quoted o = true -> quoted u = true -> split_check o u = true.
Proof.
  intros Ho Hu.
  apply (forall_quoted_spec (fun u => split_check o u)); [| exact Hu].
  apply (forall_quoted_spec
           (fun o => forall_quoted (fun u => split_check o u))); [| exact Ho].
  exact split_check_quoted.
Qed.

Lemma split_check_inv (o u : Z) :
  split_check o u = true ->
  exists r, split_of o u = Normal r
    /\ balanced_at o u r = true /\ sum_at r = true /\ between_at r = true
    /\ sign_at (margin_sign o u) r = true.
Proof.
  unfold split_check. destruct (split_of o u) as [r | m]; [| discriminate].
  intros H. apply andb_true_iff in H as [H Hs].
  apply andb_true_iff in H as [H Hb].
  apply andb_true_iff in H as [H Hm].
  exists r. auto.
Qed.




(** Counterexample to C2 as stated: with over odds 0 the call returns (the
    zero takes the branch of the non-positive odds, giving an infinite
    multiplier and a profit that is not a number) and does not fail; and with
    over odds [undefined] the call returns a split of NaNs, not of zeros. *)
Lemma calculateStakes_zero_odds_returns :
  calculateStakes (Val (ofZ 0)) (Val (ofZ (-110))) Absent
    = Normal (mkStakes (Fin 0) (Fin 100) NaN)
  /\ (forall message,
        calculateStakes (Val (ofZ 0)) (Val (ofZ (-110))) Absent <> Throw message)
  /\ calculateStakes Absent (Val (ofZ (-110))) Absent
     = Normal (mkStakes NaN NaN NaN).
Proof.
  split; [| split].
  - vm_compute. reflexivity.
  - intros message. vm_compute. discriminate.
  - vm_compute. reflexivity.
Qed.

(** C2, amended.  [calculateStakes] never fails: whatever the odds, it
    returns a split.  Odds of 0 are not rejected: they take the branch of the
    non-positive odds, [100 / Math.abs(0) + 1], which is infinite.  When
    either odds value is [null] the result is the zero split. *)
Theorem calculateStakes_total_null_zero (overOdds underOdds totalStake : field num) :
  (exists r, calculateStakes overOdds underOdds totalStake = Normal r)
  /\ decimalMultiplier (Val (ofZ 0)) = add (div (Fin 100) (abs (ofZ 0))) (Fin 1)
  /\ decimalMultiplier (Val (ofZ 0)) = PInf
  /\ (overOdds = Null \/ underOdds = Null ->
      calculateStakes overOdds underOdds totalStake
      = Normal (mkStakes (Fin 0) (Fin 0) (Fin 0))).
Proof.
  repeat split.
  - unfold calculateStakes. destruct (is_null overOdds || is_null underOdds); eauto.
  - intros [-> | ->]; unfold calculateStakes; cbn [is_null orb]; [reflexivity |].
    now rewrite orb_true_r.
Qed.

(** Witness for C2: a [null] under-odds value. *)
Lemma calculateStakes_total_null_zero_witness :
  calculateStakes (Val (ofZ 150)) Null Absent
  = Normal (mkStakes (Fin 0) (Fin 0) (Fin 0)).
Proof.
  apply (calculateStakes_total_null_zero (Val (ofZ 150)) Null Absent).
  right. reflexivity.
Defined.

(** ** Favorites *)

Section Favorites.

Implicit Types (favs : list string) (key k : string).

Lemma array_includes_app favs1 favs2 k :
  array_includes (favs1 ++ favs2) k = array_includes favs1 k || array_includes favs2 k.
Proof. unfold array_includes. apply existsb_app. Qed.

Lemma array_includes_remove_same favs key :
  array_includes (List.filter (fun f => negb (String.eqb f key)) favs) key = false.
Proof.
  unfold array_includes. induction favs as [| f favs IH]; [reflexivity |].
  cbn [List.filter]. destruct (String.eqb f key) eqn:E; cbn [negb]; [exact IH |].
  cbn [existsb]. rewrite IH, String.eqb_sym, E. reflexivity.
Qed.

Lemma array_includes_remove_other favs key k :
  k <> key ->
  array_includes (List.filter (fun f => negb (String.eqb f key)) favs) k
  = array_includes favs k.
Proof.
  intros Hne. unfold array_includes. induction favs as [| f favs IH]; [reflexivity |].
  cbn [List.filter existsb]. destruct (String.eqb f key) eqn:E; cbn [negb].
  - apply String.eqb_eq in E. subst f.
    rewrite IH. apply String.eqb_neq in Hne. now rewrite Hne.
  - cbn [existsb]. now rewrite IH.
Qed.

Lemma filter_remove_idem favs key :
  List.filter (fun f => negb (String.eqb f key))
    (List.filter (fun f => negb (String.eqb f key)) favs)
  = List.filter (fun f => negb (String.eqb f key)) favs.
Proof.
  induction favs as [| f favs IH]; [reflexivity |].
  cbn [List.filter]. destruct (String.eqb f key) eqn:E; cbn [negb]; [exact IH |].
  cbn [List.filter]. rewrite E. cbn [negb]. now rewrite IH.
Qed.

Lemma favorites_toggle st player propType :
  favorites (toggleFavorite player propType st)
  = if array_includes (favorites st) (composite_key player propType)
    then List.filter (fun f => negb (String.eqb f (composite_key player propType)))
           (favorites st)
    else favorites st ++ [composite_key player propType].
Proof. reflexivity. Qed.

Lemma isFavorite_toggle st player propType :
  isFavorite (toggleFavorite player propType st) player propType
  = negb (isFavorite st player propType).
Proof.
  unfold isFavorite. rewrite favorites_toggle.
  destruct (array_includes (favorites st) _) eqn:E; cbn [negb].
  - apply array_includes_remove_same.
  - rewrite array_includes_app, E. unfold array_includes. cbn [existsb orb].
    now rewrite String.eqb_refl.
Qed.

End Favorites.

(** C9.  From any favorites state, [toggleFavorite(player, propType)] flips
    the membership of the composite key: [isFavorite] becomes true if it was
    false (and false if it was true), and a second toggle of the same key
    restores the membership. *)
Theorem toggleFavorite_flips_membership (st : State) (player propType : string) :
  isFavorite (toggleFavorite player propType st) player propType
    = negb (isFavorite st player propType)
  /\ isFavorite (toggleFavorite player propType (toggleFavorite player propType st))
       player propType
     = isFavorite st player propType
  /\ localStorage (toggleFavorite player propType st) !! "favorites"
     = Some (favorites (toggleFavorite player propType st)).
Proof.
  split; [| split].
  - apply isFavorite_toggle.
  - rewrite !isFavorite_toggle. apply negb_involutive.
  - cbn [toggleFavorite localStorage favorites]. apply lookup_insert_eq.
Qed.

(** C10.  [toggleFavorite(player, propType)] changes only the membership of
    its own composite key: [isFavorite] is unchanged at every other composite
    key, and the other keys stay in the same relative order. *)
Theorem toggleFavorite_frame (st : State) (player propType player' propType' : string) :
  composite_key player' propType' <> composite_key player propType ->
  isFavorite (toggleFavorite player propType st) player' propType'
    = isFavorite st player' propType'
  /\ List.filter (fun f => negb (String.eqb f (composite_key player propType)))
       (favorites (toggleFavorite player propType st))
     = List.filter (fun f => negb (String.eqb f (composite_key player propType)))
         (favorites st).
Proof.
  intros Hne. unfold isFavorite. rewrite favorites_toggle.
  destruct (array_includes (favorites st) (composite_key player propType)) eqn:E.
  - split; [now apply array_includes_remove_other | apply filter_remove_idem].
  - split.
    + rewrite array_includes_app. unfold array_includes at 2. cbn [existsb].
      apply String.eqb_neq in Hne. rewrite Hne. now rewrite !orb_false_r.
    + rewrite List.filter_app. cbn [List.filter]. rewrite String.eqb_refl.
      cbn [negb]. apply app_nil_r.
Qed.

(** ** The fetch batch *)

Lemma fetch_try_failed (b : Batch) :
  some_request_failed b = true -> exists message, fetch_try b = Throw message.
Proof.
  unfold some_request_failed, fetch_try, request_failed, cbind.
  destruct (propsReq b) as [r1 | m1]; [| eauto].
  destruct (arbReq b) as [r2 | m2]; [| eauto].
  destruct (discReq b) as [r3 | m3]; [| eauto].
  destruct (oddsReq b) as [r4 | m4]; [| eauto].
  destruct (valueReq b) as [r5 | m5]; [| eauto].
  destruct (consensusReq b) as [r6 | m6]; [| eauto].
  intros ->. eauto.
Qed.

(** The two outcomes of a batch: the six collections of the payload with no
    error, or six empty collections with an error. *)
Lemma fetchAllData_outcomes (b : Batch) (st : State) :
  let st' := fetchAllData b st in
  (exists d, fetch_try b = Normal d
     /\ allProps st' = propsData d /\ arbitrage st' = arbData d
     /\ discrepancies st' = discData d /\ bestOdds st' = oddsData d
     /\ valueBets st' = valueData d /\ consensusBets st' = consensusData d
     /\ error st' = Null)
  \/ (allProps st' = [] /\ arbitrage st' = [] /\ discrepancies st' = []
      /\ bestOdds st' = [] /\ valueBets st' = [] /\ consensusBets st' = []
      /\ exists message, error st' = Val message).
Proof.
  unfold fetchAllData. destruct (fetch_try b) as [d | m]; cbn.
  - left. exists d. repeat split; reflexivity.
  - right. repeat split; eauto.
Qed.

(** C6.  If one of the six requests of a batch is rejected or answers with a
    non-success status, then after [fetchAllData] the six collections are all
    empty (and so is the grouped view) and the error is set; the loading flag
    is cleared. *)
Theorem fetchAllData_failure_empties_all (b : Batch) (st : State) :
  some_request_failed b = true ->
  let st' := fetchAllData b st in
  allProps st' = [] /\ arbitrage st' = [] /\ discrepancies st' = []
  /\ bestOdds st' = [] /\ valueBets st' = [] /\ consensusBets st' = []
  /\ groupedProps (allProps st') = []
  /\ (exists message, error st' = Val message)
  /\ loading st' = false.
Proof.
  intros Hfail. destruct (fetch_try_failed b Hfail) as [m Hm].
  unfold fetchAllData. rewrite Hm. cbn. repeat split; eauto.
Qed.

(** ** Grouping *)

Section Grouping.

Implicit Types (G : grouped_obj) (g : Grouped.t) (q : Quote.t) (k key b : string).

Lemma array_includes_In (keys : list string) k :
  array_includes keys k = true <-> In k keys.
Proof.
  unfold array_includes. rewrite existsb_exists. split.
  - intros (x & Hx & E). apply String.eqb_eq in E. now subst.
  - intros Hk. exists k. split; [assumption | apply String.eqb_refl].
Qed.

Lemma in_first_seen (keys : list string) k : In k (first_seen keys) <-> In k keys.
Proof.
  induction keys as [| a keys IH]; [reflexivity |].
  cbn [first_seen In]. rewrite filter_In, IH.
  destruct (String.eqb k a) eqn:E.
  - apply String.eqb_eq in E. subst. cbn. tauto.
  - cbn [negb]. apply String.eqb_neq in E. split.
    + intros [-> | [? _]]; auto.
    + intros [-> | ?]; auto.
Qed.

Lemma NoDup_filter_string (f : string -> bool) (l : list string) :
  List.NoDup l -> List.NoDup (List.filter f l).
Proof.
  induction 1 as [| x l Hx Hl IH]; cbn [List.filter]; [constructor |].
  destruct (f x); [| exact IH].
  constructor; [| exact IH]. rewrite filter_In. tauto.
Qed.

Lemma NoDup_first_seen (keys : list string) : List.NoDup (first_seen keys).
Proof.
  induction keys as [| a keys IH]; cbn [first_seen]; constructor.
  - rewrite filter_In, String.eqb_refl. cbn. intros [_ ?]. discriminate.
  - now apply NoDup_filter_string.
Qed.

Lemma first_seen_snoc (keys : list string) k :
  first_seen (keys ++ [k])
  = first_seen keys ++ (if array_includes keys k then [] else [k]).
Proof.
  induction keys as [| a keys IH]; [reflexivity |].
  cbn [app first_seen]. rewrite IH, List.filter_app. cbn [app]. f_equal. f_equal.
  unfold array_includes. cbn [existsb].
  destruct (String.eqb k a) eqn:E; cbn [orb].
  - destruct (existsb (String.eqb k) keys); [reflexivity |].
    cbn [List.filter]. now rewrite E.
  - destruct (existsb (String.eqb k) keys); [reflexivity |].
    cbn [List.filter]. now rewrite E.
Qed.

Lemma obj_get_None G k : obj_get k G = None <-> ~ In k (map fst G).
Proof.
  induction G as [| [k' g'] G IH]; cbn [obj_get map fst In]; [tauto |].
  destruct (String.eqb k' k) eqn:E.
  - apply String.eqb_eq in E. split; [discriminate | intros H; exfalso; auto].
  - apply String.eqb_neq in E. rewrite IH. tauto.
Qed.

Lemma obj_get_app G G' k :
  obj_get k (G ++ G')
  = match obj_get k G with Some g => Some g | None => obj_get k G' end.
Proof.
  induction G as [| [k' g'] G IH]; cbn [app obj_get]; [reflexivity |].
  destruct (String.eqb k' k); [reflexivity | exact IH].
Qed.

Lemma obj_get_set_book G key b e k :
  obj_get k (obj_set_book key b e G)
  = if String.eqb k key then add_book b e <$> obj_get key G else obj_get k G.
Proof.
  induction G as [| [k' g'] G IH]; cbn [obj_set_book obj_get].
  - now destruct (String.eqb k key).
  - destruct (String.eqb k' key) eqn:E1; cbn [obj_get].
    + apply String.eqb_eq in E1. subst k'.
      destruct (String.eqb k key) eqn:E2.
      * apply String.eqb_eq in E2. subst k. now rewrite String.eqb_refl.
      * rewrite String.eqb_sym, E2. reflexivity.
    + destruct (String.eqb k' k) eqn:E3.
      * apply String.eqb_eq in E3. subst k'. rewrite E1. reflexivity.
      * exact IH.
Qed.

Lemma map_fst_set_book G key b e :
  map fst (obj_set_book key b e G) = map fst G.
Proof.
  induction G as [| [k' g'] G IH]; cbn [obj_set_book map fst]; [reflexivity |].
  destruct (String.eqb k' key); cbn [map fst]; [reflexivity | now rewrite IH].
Qed.

Lemma in_obj_get G k g :
  List.NoDup (map fst G) -> In (k, g) G -> obj_get k G = Some g.
Proof.
  induction G as [| [k' g'] G IH]; cbn [map fst In obj_get]; [tauto |].
  intros Hnd [E | Hin].
  - inversion E; subst. now rewrite String.eqb_refl.
  - inversion Hnd as [| ? ? Hk' Hnd']; subst.
    destruct (String.eqb k' k) eqn:E.
    + apply String.eqb_eq in E. subst k'. exfalso. apply Hk'.
      change k with (fst (k, g)). now apply in_map.
    + now apply IH.
Qed.

Lemma obj_get_in G k g : obj_get k G = Some g -> In (k, g) G.
Proof.
  induction G as [| [k' g'] G IH]; cbn [obj_get In]; [discriminate |].
  destruct (String.eqb k' k) eqn:E.
  - apply String.eqb_eq in E. subst k'. intros [= ->]. now left.
  - auto.
Qed.

(** What the callback of the [forEach] does to the object. *)
Lemma obj_get_group_step G q k :
  obj_get k (group_step G q)
  = if String.eqb k (quote_key q)
    then Some (add_book (toLowerCase (Quote.sportsbook q)) (book_entry q)
                 (default (seed q) (obj_get (quote_key q) G)))
    else obj_get k G.
Proof.
  unfold group_step. rewrite obj_get_set_book.
  destruct (String.eqb k (quote_key q)) eqn:E.
  - destruct (obj_get (quote_key q) G) as [g0 |] eqn:E0.
    + now rewrite E0.
    + rewrite obj_get_app, E0. cbn [obj_get]. now rewrite String.eqb_refl.
  - destruct (obj_get (quote_key q) G) as [g0 |] eqn:E0; [reflexivity |].
    rewrite obj_get_app. destruct (obj_get k G); [reflexivity |].
    cbn [obj_get]. now rewrite String.eqb_sym, E.
Qed.

Lemma map_fst_group_step G q :
  map fst (group_step G q)
  = map fst G ++ (if array_includes (map fst G) (quote_key q) then [] else [quote_key q]).
Proof.
  unfold group_step. rewrite map_fst_set_book.
  destruct (obj_get (quote_key q) G) as [g0 |] eqn:E0.
  - assert (H : array_includes (map fst G) (quote_key q) = true).
    { apply array_includes_In. apply obj_get_in in E0.
      change (quote_key q) with (fst (quote_key q, g0)). now apply in_map. }
    rewrite H. now rewrite app_nil_r.
  - assert (H : array_includes (map fst G) (quote_key q) = false).
    { apply not_true_is_false. rewrite array_includes_In. now apply obj_get_None. }
    rewrite H. now rewrite map_app.
Qed.

Lemma array_includes_first_seen (keys : list string) k :
  array_includes (first_seen keys) k = array_includes keys k.
Proof.
  destruct (array_includes keys k) eqn:E.
  - apply array_includes_In, in_first_seen, array_includes_In, E.
  - apply not_true_is_false. rewrite array_includes_In, in_first_seen.
    rewrite <- array_includes_In, E. discriminate.
Qed.

Lemma last_quote_for_snoc key b (qs : list Quote.t) q :
  last_quote_for key b (qs ++ [q])
  = if quote_for key b q then Some q else last_quote_for key b qs.
Proof. unfold last_quote_for. rewrite rev_app_distr. reflexivity. Qed.

Lemma last_quote_for_absent key b (qs : list Quote.t) :
  ~ In key (map quote_key qs) -> last_quote_for key b qs = None.
Proof.
  intros Hnot. unfold last_quote_for.
  destruct (find (quote_for key b) (rev qs)) as [q |] eqn:E; [| reflexivity].
  apply find_some in E as [Hin Hq]. exfalso. apply Hnot.
  apply in_rev in Hin. unfold quote_for in Hq.
  apply andb_true_iff in Hq as [Hk _]. apply String.eqb_eq in Hk.
  rewrite <- Hk. now apply in_map.
Qed.

Lemma first_quote_of_snoc key (qs : list Quote.t) q0 q :
  first_quote_of key qs q0 -> first_quote_of key (qs ++ [q]) q0.
Proof.
  intros (before & after & -> & Hk & Hbefore).
  exists before, (after ++ [q]). repeat split; try assumption.
  now rewrite <- app_assoc.
Qed.

Lemma first_quote_of_new (qs : list Quote.t) q :
  ~ In (quote_key q) (map quote_key qs) ->
  first_quote_of (quote_key q) (qs ++ [q]) q.
Proof.
  intros Hnot. exists qs, []. repeat split.
  apply List.Forall_forall. intros q' Hin E. apply Hnot.
  rewrite <- E. now apply in_map.
Qed.

Lemma grouped_of_snoc (qs : list Quote.t) q :
  grouped_of (qs ++ [q]) = group_step (grouped_of qs) q.
Proof. unfold grouped_of. now rewrite fold_left_app. Qed.

(** The invariant of the [forEach] loop. *)
Lemma grouped_of_inv (qs : list Quote.t) :
  map fst (grouped_of qs) = first_seen (map quote_key qs)
  /\ forall k g, obj_get k (grouped_of qs) = Some g ->
       grouped_key g = k /\ grouped_entry_ok qs g.
Proof.
  induction qs as [| q qs [IHkeys IHent]] using rev_ind.
  - split; [reflexivity | intros k g; discriminate].
  - rewrite grouped_of_snoc. split.
    + rewrite map_fst_group_step, IHkeys, map_app. cbn [map].
      now rewrite first_seen_snoc, array_includes_first_seen.
    + intros k g. rewrite obj_get_group_step.
      destruct (String.eqb k (quote_key q)) eqn:Ek.
      * apply String.eqb_eq in Ek. subst k. intros [= <-].
        destruct (obj_get (quote_key q) (grouped_of qs)) as [g0 |] eqn:E0; cbn [from_option id].
        -- destruct (IHent _ _ E0) as (Hkey & (q0 & Hfirst & Hseed) & Hbooks).
           split; [exact Hkey |]. split.
           ++ exists q0. split; [| exact Hseed].
              change (grouped_key (add_book _ _ g0)) with (grouped_key g0).
              now apply first_quote_of_snoc.
           ++ intros book.
              change (grouped_key (add_book _ _ g0)) with (grouped_key g0).
              cbn [add_book Grouped.books].
              rewrite lookup_insert, last_quote_for_snoc, Hkey.
              unfold quote_for. rewrite String.eqb_refl. cbn [andb].
              case_decide as Hb.
              ** subst book. now rewrite String.eqb_refl.
              ** apply String.eqb_neq in Hb. rewrite Hb. rewrite <- Hkey. apply Hbooks.
        -- assert (Hnot : ~ In (quote_key q) (map quote_key qs)).
           { rewrite <- in_first_seen, <- IHkeys. now apply obj_get_None. }
           split; [reflexivity |]. split.
           ++ exists q. split; [| now repeat split].
              now apply first_quote_of_new.
           ++ intros book.
              change (grouped_key (add_book _ _ (seed q))) with (quote_key q).
              cbn [add_book seed Grouped.books].
              rewrite lookup_insert, last_quote_for_snoc.
              unfold quote_for. rewrite String.eqb_refl. cbn [andb].
              case_decide as Hb.
              ** subst book. now rewrite String.eqb_refl.
              ** apply String.eqb_neq in Hb. rewrite Hb.
                 rewrite lookup_empty. now rewrite last_quote_for_absent.
      * intros Hget. destruct (IHent _ _ Hget) as (Hkey & (q0 & Hfirst & Hseed) & Hbooks).
        split; [exact Hkey |]. split.
        -- exists q0. split; [now apply first_quote_of_snoc | exact Hseed].
        -- intros book. rewrite last_quote_for_snoc. unfold quote_for.
           rewrite Hkey, String.eqb_sym, Ek. cbn [andb]. rewrite <- Hkey. apply Hbooks.
Qed.

Lemma groupedProps_keys (qs : list Quote.t) :
  map grouped_key (groupedProps qs) = first_seen (map quote_key qs).
Proof.
  destruct (grouped_of_inv qs) as [Hkeys Hent].
  rewrite <- Hkeys. unfold groupedProps. rewrite map_map.
  apply map_ext_in. intros [k g] Hin. cbn [fst snd].
  apply (Hent k g). apply in_obj_get; [| assumption].
  rewrite Hkeys. apply NoDup_first_seen.
Qed.

End Grouping.

(** C3.  [groupedProps] is a function of the input sequence.  Its result has
    one grouped prop per distinct composite key, in the order in which the
    keys are first seen; each is seeded with the player, prop type, game and
    team of the first quote of its key, and holds under each lower-cased book
    name the entry of the last quote of its key for that book.  For the two
    quotes of the example (DraftKings at 20, FanDuel at 21, same player and
    prop type) the result is one grouped prop with [books.draftkings.line]
    20, [books.fanduel.line] 21 and a line mismatch. *)
Theorem groupedProps_spec (allProps : list Quote.t) :
  map grouped_key (groupedProps allProps) = first_seen (map quote_key allProps)
  /\ List.NoDup (map grouped_key (groupedProps allProps))
  /\ (forall key, In key (map grouped_key (groupedProps allProps))
                  <-> In key (map quote_key allProps))
  /\ (forall g, In g (groupedProps allProps) -> grouped_entry_ok allProps g)
  /\ (forall game1 team1 game2 team2 over2 under2,
        let q1 := Quote.mk "A" "points" game1 team1 "DraftKings"
                    (Val (ofZ 20)) (Val (ofZ (-110))) (Val (ofZ (-110))) in
        let q2 := Quote.mk "A" "points" game2 team2 "FanDuel"
                    (Val (ofZ 21)) over2 under2 in
        exists g,
          groupedProps [q1; q2] = [g]
          /\ line <$> Grouped.books g !! "draftkings" = Some (Val (ofZ 20))
          /\ line <$> Grouped.books g !! "fanduel" = Some (Val (ofZ 21))
          /\ lineMismatch g = true).
Proof.
  pose proof (groupedProps_keys allProps) as Hkeys.
  split; [exact Hkeys |]. split; [rewrite Hkeys; apply NoDup_first_seen |].
  split; [intros key; rewrite Hkeys; apply in_first_seen |]. split.
  - intros g Hin. unfold groupedProps in Hin.
    apply in_map_iff in Hin as ([k g'] & <- & Hin). cbn [snd].
    destruct (grouped_of_inv allProps) as [Hk Hent].
    apply (Hent k g'). apply in_obj_get; [| assumption].
    rewrite Hk. apply NoDup_first_seen.
  - intros game1 team1 game2 team2 over2 under2 q1 q2.
    exists (Grouped.mk "A" "points" game1 team1
              (<["fanduel" := book_entry q2]> (<["draftkings" := book_entry q1]> ∅))).
    repeat split.
Qed.

(** Witness for C3: the group of the two sample quotes. *)
Lemma groupedProps_spec_witness : grouped_entry_ok [sample_dk; sample_fd] sample_group.
Proof.
  apply (proj1 (proj2 (proj2 (proj2 (groupedProps_spec [sample_dk; sample_fd]))))).
  left. reflexivity.
Defined.

(** ** The filter/sort pipeline *)

Section Pipeline.

Context `{Collator}.

Lemma sort_insert_perm {A} (cmp : A -> A -> num) (x : A) (l : list A) :
  Permutation (x :: l) (sort_insert cmp x l).
Proof.
  induction l as [| y l IH]; cbn [sort_insert]; [reflexivity |].
  destruct (gt (cmp x y) (Fin 0)); [| reflexivity].
  rewrite perm_swap. now apply perm_skip.
Qed.

Lemma array_sort_perm {A} (cmp : A -> A -> num) (l : list A) :
  Permutation l (array_sort cmp l).
Proof.
  induction l as [| x l IH]; cbn [array_sort]; [reflexivity |].
  rewrite <- sort_insert_perm. now apply perm_skip.
Qed.

(** Sorting a sequence that the comparator already finds in order returns
    it. *)
Lemma array_sort_sorted {A} (cmp : A -> A -> num) (R : A -> A -> Prop) (l : list A) :
  (forall a b, R a b -> gt (cmp a b) (Fin 0) = false) ->
  Sorted R l -> array_sort cmp l = l.
Proof.
  intros HR. induction 1 as [| x l Hl IH Hhd]; [reflexivity |].
  cbn [array_sort]. rewrite IH.
  destruct Hhd as [| y l' Hxy]; cbn [sort_insert]; [reflexivity |].
  now rewrite (HR _ _ Hxy).
Qed.

Lemma sorted_perm (st : State) (data : list item) :
  Permutation data (sorted st data).
Proof.
  unfold sorted. destruct (tab_compare _ _); [apply array_sort_perm | reflexivity].
Qed.

Lemma filter_if_nil {A} (active : bool) (keep : A -> bool) :
  filter_if active keep [] = [].
Proof. now destruct active. Qed.

Lemma in_filter_if {A} (active : bool) (keep : A -> bool) (data : list A) (x : A) :
  In x (filter_if active keep data) <-> In x data /\ (active = true -> keep x = true).
Proof.
  destruct active; cbn [filter_if].
  - rewrite filter_In. intuition.
  - intuition discriminate.
Qed.

Lemma gt_ofZ_nonpos (z : Z) : (z <= 0)%Z -> gt (ofZ z) (Fin 0) = false.
Proof.
  intros Hz. apply gt_fin_zero_false. unfold Qle. cbn. lia.
Qed.

Lemma tab_compare_player (tab : Tab) (sortBy : string) :
  String.eqb sortBy "profit" = false ->
  tab_compare tab sortBy = None \/ tab_compare tab sortBy = Some by_player.
Proof.
  intros E. unfold tab_compare. rewrite E. destruct tab; auto.
Qed.

(** The filters that do not read the selected book. *)
Lemma filtered_book (st : State) (data : list item) :
  filtered st data
  = filter_if (book_active st) (book_keep st)
      (filtered (setSelectedBook "all" st) data).
Proof. reflexivity. Qed.

Lemma filtered_setSelectedBook (st : State) (book : string) (data : list item) :
  book_tab (activeTab st) = false ->
  filtered (setSelectedBook book st) data = filtered st data.
Proof.
  intros Htab. unfold filtered, book_active. cbn [setSelectedBook activeTab].
  rewrite Htab, !andb_false_r. reflexivity.
Qed.

(** Profits 2.1, 5.3, 0.4 sorted by value come out as 5.3, 2.1, 0.4. *)
Example filteredData_by_value_descending :
  map (item_rank Opp.profit_percent) (filteredData sample_ranked_state)
  = [Val (Fin (53 # 10)); Val (Fin (21 # 10)); Val (Fin (4 # 10))].
Proof. reflexivity. Qed.

(** C4.  With every filter at its default (empty search text, prop type
    "all", sportsbook "all", favorites off) and the sort by player, the
    pipeline returns the base collection of the tab unchanged, order and
    content, when that collection is in ascending order of player name; and
    an empty base collection gives an empty result, whatever the criteria. *)
Theorem filteredData_identity (st : State) :
  (searchQuery st = "" -> selectedPropType st = "all" ->
   selectedBook st = "all" -> showFavorites st = false ->
   sortBy st = "player" -> player_sorted (base_data st) ->
   filteredData st = base_data st)
  /\ (base_data st = [] -> filteredData st = []).
Proof.
  split.
  - intros Hq Hp Hb Hf Hs Hsorted.
    unfold filteredData, filtered, search_active, propType_active, book_active.
    rewrite Hq, Hp, Hb, Hf. cbn [String.eqb Ascii.eqb Bool.eqb negb andb filter_if].
    unfold sorted.
    destruct (tab_compare_player (activeTab st) (sortBy st)) as [-> | ->];
      [now rewrite Hs | reflexivity |].
    apply (array_sort_sorted _ _ _ (fun a b Hab => gt_ofZ_nonpos _ Hab) Hsorted).
  - intros Hbase. unfold filteredData, filtered. rewrite Hbase, !filter_if_nil.
    unfold sorted. now destruct (tab_compare _ _).
Qed.

(** C5, amended.  Whatever the ranking fields of the records (missing, null
    or not finite), the pipeline returns, and its result holds exactly the
    records that pass the filters, each as often as it passes: no record is
    dropped by the sort and none stops the others from being processed. *)
Theorem filteredData_keeps_every_record (st : State) :
  Permutation (filtered st (base_data st)) (filteredData st).
Proof. apply sorted_perm. Qed.

(** C7, amended.  In [filteredData] the sportsbook filter runs on the value,
    consensus and best-odds tabs only: there a record is kept iff the
    selected book is "all" or equals its [best_book]; on the other three tabs
    [filteredData] does not depend on the selected book.  The rows on screen
    of the arbitrage and discrepancies tabs do not depend on it either; on
    the "all" tab the view hides the rows that the row filter rejects for the
    selected book. *)
Theorem sportsbook_filter_scope (st : State) :
  (book_tab (activeTab st) = true ->
   forall i, In i (filteredData st)
             <-> In i (filteredData (setSelectedBook "all" st))
                 /\ (selectedBook st = "all" \/ item_best_book i = Val (selectedBook st)))
  /\ (book_tab (activeTab st) = false ->
      forall book, filteredData (setSelectedBook book st) = filteredData st)
  /\ (activeTab st = TabArbitrage \/ activeTab st = TabDiscrepancies ->
      forall book, renderedRows (setSelectedBook book st) = renderedRows st)
  /\ (activeTab st = TabAll ->
      renderedRows st
      = List.filter (item_row_shown (selectedBook st))
          (renderedRows (setSelectedBook "all" st))).
Proof.
  split; [| split; [| split]].
  - intros Htab i. unfold filteredData.
    rewrite <- (Permutation_in' eq_refl (sorted_perm st _)).
    change (sorted (setSelectedBook "all" st)) with (sorted st).
    rewrite <- (Permutation_in' eq_refl (sorted_perm st _)).
    change (base_data (setSelectedBook "all" st)) with (base_data st).
    rewrite filtered_book, in_filter_if.
    unfold book_active, book_keep. rewrite Htab, andb_true_r.
    destruct (String.eqb (selectedBook st) "all") eqn:E; cbn [negb].
    + apply String.eqb_eq in E. intuition congruence.
    + apply String.eqb_neq in E.
      assert (Hb : strict_eq_str (item_best_book i) (selectedBook st) = true
                   <-> item_best_book i = Val (selectedBook st)).
      { unfold strict_eq_str. destruct (item_best_book i) as [| | s'];
          try (split; discriminate).
        rewrite String.eqb_eq. split; [now intros -> | now intros [= ->]]. }
      rewrite <- Hb. intuition congruence.
  - intros Htab book. unfold filteredData.
    change (sorted (setSelectedBook book st)) with (sorted st).
    change (base_data (setSelectedBook book st)) with (base_data st).
    now rewrite filtered_setSelectedBook.
  - intros Htab book. unfold renderedRows, filteredData.
    change (sorted (setSelectedBook book st)) with (sorted st).
    change (base_data (setSelectedBook book st)) with (base_data st).
    cbn [setSelectedBook isScraping activeTab].
    rewrite filtered_setSelectedBook by (destruct Htab as [-> | ->]; reflexivity).
    destruct Htab as [-> | ->]; reflexivity.
  - intros Htab. unfold renderedRows, filteredData.
    change (sorted (setSelectedBook "all" st)) with (sorted st).
    change (base_data (setSelectedBook "all" st)) with (base_data st).
    cbn [setSelectedBook isScraping activeTab selectedBook].
    rewrite filtered_setSelectedBook by (rewrite Htab; reflexivity).
    rewrite Htab. destruct (isScraping st); [reflexivity |].
    f_equal. symmetry. apply forallb_filter_id.
    apply forallb_forall. intros [g | o] _; reflexivity.
Qed.

End Pipeline.

(** ** Arrays as shared objects *)

Section Store.

Context `{Collator}.

Implicit Types (σ : store) (l : list item) (r data : nat).

Lemma bind_run {A B} (m : M A) (k : A -> M B) σ a σ' :
  m σ = (a, σ') -> (m ≫= k) σ = k a σ'.
Proof. unfold mbind, M_bind. now intros ->. Qed.

Lemma array_new_run l σ :
  exists r, array_new l σ = (r, <[r := l]> σ) /\ σ !! r = None.
Proof.
  exists (fresh (dom σ)). split; [reflexivity |].
  apply not_elem_of_dom, is_fresh.
Qed.

(** A filter step leaves the arrays in place and, when it runs, returns a new
    one. *)
Lemma filter_step_run (active : bool) (keep : item -> bool) data l σ0 σ :
  σ0 ⊆ σ -> σ !! data = Some l ->
  exists r σ',
    filter_step active keep data σ = (r, σ')
    /\ σ0 ⊆ σ'
    /\ σ' !! r = Some (filter_if active keep l)
    /\ (active = false -> r = data)
    /\ (active = true -> σ0 !! r = None).
Proof.
  intros Hsub Hdata. destruct active; cbn [filter_step filter_if].
  - destruct (array_new_run (List.filter keep l) σ) as (r & Hr & Hfresh).
    exists r, (<[r := List.filter keep l]> σ).
    assert (Hfresh0 : σ0 !! r = None) by (eapply lookup_weaken_None; eassumption).
    repeat split.
    + unfold array_filter. erewrite bind_run; [exact Hr |].
      unfold array_get. now rewrite Hdata.
    + now apply insert_subseteq_r.
    + apply lookup_insert_eq.
    + discriminate.
    + intros _. exact Hfresh0.
  - exists data, σ. repeat split; try assumption. discriminate.
Qed.

(** Copying and sorting the copy leaves the arrays in place and returns a new
    array. *)
Lemma sort_copy_run (cmp : item -> item -> num) data l σ0 σ :
  σ0 ⊆ σ -> σ !! data = Some l ->
  exists r σ',
    (copy ← array_spread data; array_sort_in_place cmp copy) σ = (r, σ')
    /\ σ0 ⊆ σ'
    /\ σ' !! r = Some (array_sort cmp l)
    /\ σ0 !! r = None.
Proof.
  intros Hsub Hdata.
  destruct (array_new_run l σ) as (r & Hr & Hfresh).
  assert (Hfresh0 : σ0 !! r = None) by (eapply lookup_weaken_None; eassumption).
  exists r, (alter (array_sort cmp) r (<[r := l]> σ)). repeat split.
  - erewrite bind_run; [reflexivity |].
    unfold array_spread. erewrite bind_run; [exact Hr |].
    unfold array_get. now rewrite Hdata.
  - apply map_subseteq_spec. intros i v Hi.
    assert (r <> i) by (intros ->; congruence).
    rewrite lookup_alter_ne, lookup_insert_ne by assumption.
    eapply lookup_weaken; eassumption.
  - now rewrite lookup_alter_eq, lookup_insert_eq.
  - exact Hfresh0.
Qed.

Lemma store_holds_base σ refs st :
  store_holds σ refs st -> σ !! base_ref refs (activeTab st) = Some (base_data st).
Proof.
  intros (H1 & H2 & H3 & H4 & H5 & H6). unfold base_ref, base_data.
  destruct (activeTab st); assumption.
Qed.

Lemma store_holds_weaken σ σ' refs st :
  σ ⊆ σ' -> store_holds σ refs st -> store_holds σ' refs st.
Proof.
  intros Hsub (H1 & H2 & H3 & H4 & H5 & H6).
  repeat split; eapply lookup_weaken; eassumption.
Qed.

Lemma store_of_holds st : store_holds (store_of st) sample_refs st.
Proof. repeat split. Qed.

(** C8, amended.  Running [filteredData] leaves every array of the store as
    it was, in content and order, the grouped props and the five opportunity
    collections among them, and the array it returns holds the value of the
    memo.  That array is a new one, except on the "all" tab when no filter
    step runs: there the result is the grouped-props array itself. *)
Theorem filteredData_run_frame (refs : Refs) (st : State) (σ : store) :
  store_holds σ refs st ->
  exists r σ',
    filteredData_run refs st σ = (r, σ')
    /\ (forall i l, σ !! i = Some l -> σ' !! i = Some l)
    /\ store_holds σ' refs st
    /\ σ' !! r = Some (filteredData st)
    /\ (activeTab st = TabAll /\ no_filter_active st = true ->
        r = groupedPropsRef refs)
    /\ (activeTab st <> TabAll \/ no_filter_active st = false -> σ !! r = None).
Proof.
  intros Hholds. pose proof (store_holds_base _ _ _ Hholds) as Hbase.
  unfold filteredData_run.
  destruct (filter_step_run (search_active st) (search_keep st) _ _ σ σ
              (reflexivity σ) Hbase) as (r1 & σ1 & E1 & S1 & L1 & I1 & F1).
  destruct (filter_step_run (propType_active st) (propType_keep st) r1 _ σ σ1 S1 L1)
    as (r2 & σ2 & E2 & S2 & L2 & I2 & F2).
  destruct (filter_step_run (showFavorites st) (favorites_keep st) r2 _ σ σ2 S2 L2)
    as (r3 & σ3 & E3 & S3 & L3 & I3 & F3).
  destruct (filter_step_run (book_active st) (book_keep st) r3 _ σ σ3 S3 L3)
    as (r4 & σ4 & E4 & S4 & L4 & I4 & F4).
  rewrite (bind_run _ _ _ _ _ E1). cbv beta.
  rewrite (bind_run _ _ _ _ _ E2). cbv beta.
  rewrite (bind_run _ _ _ _ _ E3). cbv beta.
  rewrite (bind_run _ _ _ _ _ E4). cbv beta.
  destruct (tab_compare (activeTab st) (sortBy st)) as [cmp |] eqn:Ecmp.
  - destruct (sort_copy_run cmp r4 _ σ σ4 S4 L4) as (r & σ' & E & S & L & F).
    exists r, σ'. split; [exact E |].
    split; [intros i l Hi; eapply lookup_weaken; eassumption |].
    split; [eapply store_holds_weaken; eassumption |].
    split; [| split].
    + rewrite L. unfold filteredData, sorted, filtered. now rewrite Ecmp.
    + intros [Htab _]. rewrite Htab in Ecmp. discriminate.
    + intros _. exact F.
  - assert (Htab : activeTab st = TabAll).
    { destruct (activeTab st); try reflexivity; cbn in Ecmp; discriminate. }
    exists r4, σ4. split; [reflexivity |].
    split; [intros i l Hi; eapply lookup_weaken; eassumption |].
    split; [eapply store_holds_weaken; eassumption |].
    split; [| split].
    + rewrite L4. unfold filteredData, sorted, filtered. now rewrite Ecmp.
    + intros [_ Hno]. unfold no_filter_active in Hno.
      destruct (search_active st), (propType_active st), (showFavorites st),
        (book_active st); try discriminate.
      rewrite I4, I3, I2, I1 by reflexivity. now rewrite Htab.
    + intros [Hne | Hno]; [contradiction |]. unfold no_filter_active in Hno.
      destruct (book_active st); [now apply F4 |]. rewrite I4 by reflexivity.
      destruct (showFavorites st); [now apply F3 |]. rewrite I3 by reflexivity.
      destruct (propType_active st); [now apply F2 |]. rewrite I2 by reflexivity.
      destruct (search_active st); [now apply F1 | discriminate].
Qed.

End Store.

(** ** Instances of the properties on the sample data *)

(** Witness for C4: the value tab of the sample state. *)
Lemma filteredData_identity_witness :
  @filteredData codeUnitCollator sample_value_state = base_data sample_value_state.
Proof.
  apply (proj1 (@filteredData_identity codeUnitCollator sample_value_state));
    try reflexivity.
  repeat constructor. vm_compute. discriminate.
Defined.

(** Counterexample to C5 as stated: on the arbitrage tab sorted by value, the
    record without [profit_percent] is kept and comes first, before a record
    ranked 5.3: it is neither excluded nor sorted last. *)
Lemma filteredData_missing_rank_first :
  Opp.profit_percent sample_arb_missing = Absent
  /\ @filteredData codeUnitCollator sample_arb_state
     = [IOpp sample_arb_missing; IOpp sample_arb_53].
Proof. split; reflexivity. Qed.

(** Witness for C6: the batch whose arbitrage request fails. *)
Lemma fetchAllData_failure_empties_all_witness :
  let st' := fetchAllData sample_failed_batch initial_state in
  allProps st' = [] /\ arbitrage st' = [] /\ discrepancies st' = []
  /\ bestOdds st' = [] /\ valueBets st' = [] /\ consensusBets st' = []
  /\ groupedProps (allProps st') = []
  /\ (exists message, error st' = Val message)
  /\ loading st' = false.
Proof.
  apply (fetchAllData_failure_empties_all sample_failed_batch initial_state).
  reflexivity.
Defined.

(** Counterexample to C7 as stated: on the "all" tab, selecting DraftKings
    empties the rows on screen when the only prop has no DraftKings entry,
    while [filteredData] is the same for both selections. *)
Lemma renderedRows_all_depends_on_book :
  @renderedRows codeUnitCollator (setSelectedBook "DraftKings" sample_all_state) = []
  /\ @renderedRows codeUnitCollator (setSelectedBook "all" sample_all_state)
     = map IGrouped (groupedProps [sample_fd])
  /\ @renderedRows codeUnitCollator (setSelectedBook "all" sample_all_state) <> []
  /\ @filteredData codeUnitCollator (setSelectedBook "DraftKings" sample_all_state)
     = @filteredData codeUnitCollator (setSelectedBook "all" sample_all_state).
Proof.
  split; [vm_compute; reflexivity |]. split; [reflexivity |].
  split; [| reflexivity]. vm_compute. discriminate.
Qed.

(** Witness for C7: the FanDuel record on the value tab of the sample state,
    with FanDuel selected. *)
Lemma sportsbook_filter_scope_witness :
  In (IOpp sample_value_b)
     (@filteredData codeUnitCollator (setSelectedBook "FanDuel" sample_value_state))
  <-> In (IOpp sample_value_b)
         (@filteredData codeUnitCollator
            (setSelectedBook "all" (setSelectedBook "FanDuel" sample_value_state)))
      /\ (selectedBook (setSelectedBook "FanDuel" sample_value_state) = "all"
          \/ item_best_book (IOpp sample_value_b)
             = Val (selectedBook (setSelectedBook "FanDuel" sample_value_state))).
Proof.
  apply (proj1 (@sportsbook_filter_scope codeUnitCollator
                  (setSelectedBook "FanDuel" sample_value_state))
           eq_refl (IOpp sample_value_b)).
Defined.

(** Counterexample to C8 as stated: on the "all" tab with no filter, the
    result of [filteredData] is the grouped-props array of the store, not a
    new array. *)
Lemma filteredData_run_returns_input :
  store_holds (store_of sample_all_state) sample_refs sample_all_state
  /\ fst (@filteredData_run codeUnitCollator sample_refs sample_all_state
            (store_of sample_all_state))
     = groupedPropsRef sample_refs
  /\ is_Some (store_of sample_all_state !! groupedPropsRef sample_refs).
Proof.
  split; [apply store_of_holds |]. split; [reflexivity |].
  eexists. reflexivity.
Qed.

(** Witness for C8: the arbitrage tab of the sample state. *)
Lemma filteredData_run_frame_witness :
  exists r σ',
    @filteredData_run codeUnitCollator sample_refs sample_arb_state
      (store_of sample_arb_state) = (r, σ')
    /\ (forall i l, store_of sample_arb_state !! i = Some l -> σ' !! i = Some l)
    /\ store_holds σ' sample_refs sample_arb_state
    /\ σ' !! r = Some (@filteredData codeUnitCollator sample_arb_state)
    /\ (activeTab sample_arb_state = TabAll /\ no_filter_active sample_arb_state = true ->
        r = groupedPropsRef sample_refs)
    /\ (activeTab sample_arb_state <> TabAll \/ no_filter_active sample_arb_state = false ->
        store_of sample_arb_state !! r = None).
Proof.
  apply (@filteredData_run_frame codeUnitCollator sample_refs sample_arb_state
           (store_of sample_arb_state)).
  repeat split.
Defined.

(** Witness for C10: toggling ("A", "points") and looking at ("B", "points"). *)
Lemma toggleFavorite_frame_witness :
  isFavorite (toggleFavorite "A" "points" initial_state) "B" "points"
    = isFavorite initial_state "B" "points"
  /\ List.filter (fun f => negb (String.eqb f (composite_key "A" "points")))
       (favorites (toggleFavorite "A" "points" initial_state))
     = List.filter (fun f => negb (String.eqb f (composite_key "A" "points")))
         (favorites initial_state).
Proof.
  apply (toggleFavorite_frame initial_state "A" "points" "B" "points").
  vm_compute. discriminate.
Defined.

(** * Further properties *)

(** ** The multiplier of American odds *)

Section StakeValues.

Local Open Scope Q_scope.

Lemma multiplier_of_pos (p : positive) :
  multiplier_of (Zpos p) == (Zpos p + 100) # 100.
Proof.
  unfold multiplier_of, decimalMultiplier, ofZ. cbn [toNumber].
  rewrite gt_fin_zero_true by reflexivity.
  rewrite div_fin_pos by reflexivity.
  unfold add, fin. rewrite !Qred_correct.
  unfold Qeq, Qdiv, Qmult, Qplus, Qinv, inject_Z. cbn.
  rewrite ?Pos2Z.inj_mul. ring.
Qed.

Lemma multiplier_of_neg (p : positive) :
  multiplier_of (Zneg p) == (Zpos p + 100) # p.
Proof.
  unfold multiplier_of, decimalMultiplier, ofZ. cbn [toNumber].
  rewrite gt_fin_zero_false by discriminate.
  cbn [abs]. unfold fin.
  rewrite div_fin_pos by (rewrite Qred_correct; reflexivity).
  unfold add, fin. rewrite !Qred_correct.
  change (Qabs (inject_Z (Z.neg p))) with (inject_Z (Z.pos p)).
  unfold Qeq, Qdiv, Qmult, Qplus, Qinv, inject_Z. cbn.
  rewrite ?Pos2Z.inj_mul. ring.
Qed.

Lemma decimalMultiplier_multiplier_of (o : Z) :
  o <> 0%Z -> decimalMultiplier (Val (ofZ o)) = Fin (multiplier_of o).
Proof.
  intros Ho.
  assert (Ho' : ~ (inject_Z o == 0)%Q).
  { intros E. apply Ho. now apply (inject_Z_injective o 0). }
  unfold multiplier_of, ofZ.
  now destruct (decimalMultiplier_finite _ Ho') as (d & -> & _).
Qed.

Lemma multiplier_of_le (o1 o2 : Z) :
  (100 <= Z.abs o1)%Z -> (100 <= Z.abs o2)%Z -> (o1 <= o2)%Z ->
  multiplier_of o1 <= multiplier_of o2.
Proof.
  intros H1 H2 Hle.
  destruct o1 as [| p1 | p1], o2 as [| p2 | p2]; try lia;
    rewrite ?multiplier_of_pos, ?multiplier_of_neg;
    unfold Qle; cbn [Qnum Qden]; nia.
Qed.

(** X4.  On American odds of absolute value 100 or more, the multiplier grows
    with the odds: of two quotes, the one with the greater odds never pays
    less. *)
Theorem decimalMultiplier_monotone (o1 o2 : Z) :
  (100 <= Z.abs o1)%Z -> (100 <= Z.abs o2)%Z -> (o1 <= o2)%Z ->
  decimalMultiplier (Val (ofZ o1)) = Fin (multiplier_of o1)
  /\ decimalMultiplier (Val (ofZ o2)) = Fin (multiplier_of o2)
  /\ multiplier_of o1 <= multiplier_of o2.
Proof.
  intros H1 H2 Hle.
  split; [apply decimalMultiplier_multiplier_of; lia |].
  split; [apply decimalMultiplier_multiplier_of; lia |].
  now apply multiplier_of_le.
Qed.

End StakeValues.

(** ** The stake split on binary64 numbers *)

(** The implied probability of non-zero odds is the reciprocal of their
    multiplier. *)
Lemma implied_probability_multiplier (odds : Z) :
  odds <> 0%Z -> (implied_probability odds * multiplier_of odds == 1)%Q.
Proof.
  intros Hne. destruct odds as [| p | p]; [contradiction | |].
  - rewrite multiplier_of_pos. unfold implied_probability, Qeq, Qmult.
    cbn [Z.ltb Z.compare Qnum Qden]. rewrite !Pos2Z.inj_mul, Z2Pos.id by lia. lia.
  - rewrite multiplier_of_neg. unfold implied_probability, Qeq, Qmult.
    cbn [Z.ltb Z.compare Qnum Qden Z.abs].
    rewrite !Pos2Z.inj_mul, Z2Pos.id by lia. lia.
Qed.

(** X1.  For quoted odds and the default stake, the two stakes that
    [calculateStakes] returns add up, as doubles, to the stake of 100
    exactly. *)
Theorem calculateStakes_stakes_sum (o u : Z) :
  quoted o = true -> quoted u = true ->
  exists r,
    Double.calculateStakes (Val (Double.ofZ o)) (Val (Double.ofZ u)) Absent
    = Normal r
    /\ (Double.stakeOver r + Double.stakeUnder r =? 100)%float = true.
Proof.
  intros Ho Hu.
  destruct (split_check_inv o u (split_check_holds o u Ho Hu))
    as (r & Hr & _ & Hs & _).
  exists r. split; [exact Hr | exact Hs].
Qed.

(** X2.  For quoted odds and the default stake, the profit that
    [calculateStakes] returns is positive when the implied probabilities of
    the two odds sum to less than 1 (an arbitrage), negative when they sum to
    more than 1, and within 2^-40 of zero when they sum to 1 (where it need
    not be zero: odds +112 and -112 give 1.4e-14). *)
Theorem calculateStakes_profit_sign (o u : Z) :
  quoted o = true -> quoted u = true ->
  exists r,
    Double.calculateStakes (Val (Double.ofZ o)) (Val (Double.ofZ u)) Absent
    = Normal r
    /\ ((implied_probability o + implied_probability u < 1)%Q ->
        (0 <? Double.profit r)%float = true)
    /\ ((1 < implied_probability o + implied_probability u)%Q ->
        (Double.profit r <? 0)%float = true)
    /\ ((implied_probability o + implied_probability u == 1)%Q ->
        Double.within Double.tolerance (Double.profit r) 0%float = true).
Proof.
  intros Ho Hu.
  destruct (split_check_inv o u (split_check_holds o u Ho Hu))
    as (r & Hr & _ & _ & _ & Hs).
  exists r. split; [exact Hr |].
  rewrite <- margin_sign_spec in Hs.
  destruct (implied_probability o + implied_probability u ?= 1)%Q eqn:E;
    repeat split; intros H; try exact Hs; exfalso;
    first
      [ solve [pose proof (proj1 (Qlt_alt _ _) H) as E'; rewrite E in E'; discriminate]
      | solve [pose proof (proj1 (Qgt_alt _ _) H) as E'; rewrite E in E'; discriminate]
      | solve [pose proof (proj1 (Qeq_alt _ _) H) as E'; rewrite E in E'; discriminate] ].
Qed.

(** X3.  For quoted odds and the default stake, each of the two stakes is
    strictly between 0 and the stake of 100. *)
Theorem calculateStakes_stakes_between (o u : Z) :
  quoted o = true -> quoted u = true ->
  exists r,
    Double.calculateStakes (Val (Double.ofZ o)) (Val (Double.ofZ u)) Absent
    = Normal r
    /\ (0 <? Double.stakeOver r)%float = true
    /\ (Double.stakeOver r <? 100)%float = true
    /\ (0 <? Double.stakeUnder r)%float = true
    /\ (Double.stakeUnder r <? 100)%float = true.
Proof.
  intros Ho Hu.
  destruct (split_check_inv o u (split_check_holds o u Ho Hu))
    as (r & Hr & _ & _ & Hb & _).
  exists r. split; [exact Hr |].
  unfold between_at in Hb.
  apply andb_true_iff in Hb as [Hb H4].
  apply andb_true_iff in Hb as [Hb H3].
  apply andb_true_iff in Hb as [H1 H2].
  auto.
Qed.

Lemma opposite_check_quoted : forall_quoted opposite_check = true.
Proof. vm_compute. reflexivity. Qed.

(** X5.  For quoted odds [o], the net payouts per unit of [+o] and [-o] are
    reciprocal up to rounding: as doubles, their product is within 2^-40 of
    1.  (It is not 1 exactly: the multiplier of the negative odds is
    rounded.) *)
Theorem decimalMultiplier_opposite (o : Z) :
  quoted o = true ->
  Double.within Double.tolerance
    ((Double.decimalMultiplier (Val (Double.ofZ o)) - 1)
     * (Double.decimalMultiplier (Val (Double.ofZ (- o))) - 1))%float
    1%float = true.
Proof.
  intros Ho. apply (forall_quoted_spec opposite_check opposite_check_quoted o Ho).
Qed.

(** ** Favorites: order, duplicates and the saved copy *)

Section FavoritesMore.

Implicit Types (favs : list string) (key k : string).

Lemma array_includes_toggle st player propType k :
  array_includes (favorites (toggleFavorite player propType st)) k
  = if String.eqb k (composite_key player propType)
    then negb (array_includes (favorites st) k)
    else array_includes (favorites st) k.
Proof.
  rewrite favorites_toggle.
  destruct (String.eqb k (composite_key player propType)) eqn:E.
  - apply String.eqb_eq in E. subst k.
    destruct (array_includes (favorites st) _) eqn:Ein; cbn [negb].
    + apply array_includes_remove_same.
    + rewrite array_includes_app, Ein. unfold array_includes. cbn [existsb orb].
      now rewrite String.eqb_refl.
  - apply String.eqb_neq in E.
    destruct (array_includes (favorites st) (composite_key player propType)).
    + now apply array_includes_remove_other.
    + rewrite array_includes_app. unfold array_includes at 2. cbn [existsb].
      apply String.eqb_neq in E. rewrite E. now rewrite !orb_false_r.
Qed.

Lemma filter_remove_absent favs key :
  array_includes favs key = false ->
  List.filter (fun f => negb (String.eqb f key)) favs = favs.
Proof.
  unfold array_includes. induction favs as [| f favs IH]; [reflexivity |].
  cbn [existsb List.filter]. intros Hin. apply orb_false_iff in Hin as [Hf Hin].
  rewrite String.eqb_sym, Hf. cbn [negb]. now rewrite IH.
Qed.

Lemma filter_remove_length favs key :
  List.NoDup favs -> array_includes favs key = true ->
  S (length (List.filter (fun f => negb (String.eqb f key)) favs)) = length favs.
Proof.
  unfold array_includes. induction 1 as [| f favs Hf Hnd IH]; [discriminate |].
  cbn [existsb List.filter length]. destruct (String.eqb key f) eqn:E.
  - intros _. apply String.eqb_eq in E. subst f.
    rewrite String.eqb_refl. cbn [negb]. f_equal. f_equal.
    apply filter_remove_absent. apply not_true_is_false.
    unfold array_includes. rewrite existsb_exists. intros (x & Hx & Ex).
    apply String.eqb_eq in Ex. now subst.
  - cbn [orb]. intros Hin. rewrite String.eqb_sym, E. cbn [negb length].
    f_equal. now apply IH.
Qed.

End FavoritesMore.

(** X6.  A favorites list without duplicates stays without duplicates under
    [toggleFavorite], and its length changes by exactly one: one less when
    the key was a favorite, one more when it was not. *)
Theorem toggleFavorite_no_duplicates (st : State) (player propType : string) :
  List.NoDup (favorites st) ->
  List.NoDup (favorites (toggleFavorite player propType st))
  /\ (if isFavorite st player propType
      then S (length (favorites (toggleFavorite player propType st)))
           = length (favorites st)
      else length (favorites (toggleFavorite player propType st))
           = S (length (favorites st))).
Proof.
  intros Hnd. unfold isFavorite. rewrite favorites_toggle.
  destruct (array_includes (favorites st) (composite_key player propType)) eqn:E.
  - split; [now apply NoDup_filter_string | now apply filter_remove_length].
  - split.
    + apply List.NoDup_app; [assumption | repeat constructor; intros [] |].
      intros x Hx [<- | []].
      apply array_includes_In in Hx. congruence.
    + rewrite length_app. cbn. lia.
Qed.

(** X7.  Toggles of two keys commute as far as membership goes: whichever
    order they are made in, [isFavorite] answers the same for every key. *)
Theorem toggleFavorite_commute (st : State) (p1 t1 p2 t2 player propType : string) :
  isFavorite (toggleFavorite p1 t1 (toggleFavorite p2 t2 st)) player propType
  = isFavorite (toggleFavorite p2 t2 (toggleFavorite p1 t1 st)) player propType.
Proof.
  unfold isFavorite. rewrite !array_includes_toggle.
  destruct (String.eqb _ (composite_key p1 t1)), (String.eqb _ (composite_key p2 t2));
    reflexivity.
Qed.

(** X8.  Two toggles of the same key give back the very list when the key was
    not a favorite; when it was, the other favorites keep their order and the
    key is now the last of the list. *)
Theorem toggleFavorite_twice_list (st : State) (player propType : string) :
  favorites (toggleFavorite player propType (toggleFavorite player propType st))
  = if isFavorite st player propType
    then List.filter (fun f => negb (String.eqb f (composite_key player propType)))
           (favorites st) ++ [composite_key player propType]
    else favorites st.
Proof.
  rewrite favorites_toggle, array_includes_toggle, String.eqb_refl.
  unfold isFavorite. rewrite favorites_toggle.
  destruct (array_includes (favorites st) (composite_key player propType)) eqn:E;
    cbn [negb].
  - reflexivity.
  - rewrite List.filter_app. cbn [List.filter]. rewrite String.eqb_refl. cbn [negb].
    rewrite app_nil_r. now apply filter_remove_absent.
Qed.

(** X9.  The favorites survive the session: what [toggleFavorite] saves is
    what the mount effect of the next session loads, so [isFavorite] answers
    in the new session as it did at the end of the old one. *)
Theorem favorites_saved_and_loaded (st : State) (player propType p t : string) :
  favorites (loadFavorites (remount (toggleFavorite player propType st)))
    = favorites (toggleFavorite player propType st)
  /\ isFavorite (loadFavorites (remount (toggleFavorite player propType st))) p t
     = isFavorite (toggleFavorite player propType st) p t.
Proof.
  assert (E : favorites (loadFavorites (remount (toggleFavorite player propType st)))
              = favorites (toggleFavorite player propType st)).
  { unfold loadFavorites. cbn [remount localStorage toggleFavorite].
    rewrite lookup_insert_eq. reflexivity. }
  split; [exact E |]. unfold isFavorite. now rewrite E.
Qed.

(** ** Grouping: coverage, provenance and counts *)

Section GroupingMore.

Implicit Types (g : Grouped.t) (q : Quote.t) (k key b : string).

Lemma first_seen_length (keys : list string) :
  length (first_seen keys) <= length keys.
Proof.
  induction keys as [| a keys IH]; [reflexivity |].
  cbn [first_seen length]. apply le_n_S.
  etransitivity; [apply List.filter_length_le | exact IH].
Qed.

Lemma last_quote_for_some (qs : list Quote.t) q :
  In q qs ->
  exists q', last_quote_for (quote_key q) (toLowerCase (Quote.sportsbook q)) qs = Some q'.
Proof.
  intros Hin. unfold last_quote_for.
  destruct (find _ (rev qs)) as [q' |] eqn:E; [eauto |].
  exfalso. apply in_rev in Hin.
  pose proof (find_none _ _ E q Hin) as Hq. unfold quote_for in Hq.
  now rewrite !String.eqb_refl in Hq.
Qed.

Lemma last_quote_for_spec (qs : list Quote.t) k b q :
  last_quote_for k b qs = Some q ->
  In q qs /\ quote_key q = k /\ toLowerCase (Quote.sportsbook q) = b.
Proof.
  unfold last_quote_for. intros E. apply find_some in E as [Hin Hq].
  apply in_rev in Hin. unfold quote_for in Hq.
  apply andb_true_iff in Hq as [Hk Hb].
  apply String.eqb_eq in Hk, Hb. auto.
Qed.

Lemma groupedProps_entry_ok (qs : list Quote.t) g :
  In g (groupedProps qs) -> grouped_entry_ok qs g.
Proof.
  intros Hin. unfold groupedProps in Hin.
  apply in_map_iff in Hin as ([k g'] & <- & Hin). cbn [snd].
  destruct (grouped_of_inv qs) as [Hk Hent].
  apply (Hent k g'). apply in_obj_get; [| assumption].
  rewrite Hk. apply NoDup_first_seen.
Qed.

Lemma group_of_key (qs : list Quote.t) k :
  In k (map quote_key qs) ->
  exists g, In g (groupedProps qs) /\ grouped_key g = k.
Proof.
  intros Hin. apply (proj2 (in_first_seen _ _)) in Hin.
  rewrite <- groupedProps_keys in Hin.
  apply in_map_iff in Hin as (g & Hg & Hin). eauto.
Qed.

Lemma no_dash_cons (c : ascii) (s : string) :
  no_dash (String c s) = true -> c <> "-"%char /\ no_dash s = true.
Proof.
  unfold no_dash. cbn [includes String.prefix].
  destruct (ascii_dec "-" c) as [<- | Hc]; cbn [orb negb];
    [destruct s; cbn; discriminate |].
  intros Hs. split; [congruence | exact Hs].
Qed.

Lemma composite_key_injective (p1 t1 p2 t2 : string) :
  no_dash p1 = true -> no_dash p2 = true ->
  composite_key p1 t1 = composite_key p2 t2 -> p1 = p2 /\ t1 = t2.
Proof.
  unfold composite_key. revert p2.
  induction p1 as [| c1 p1 IH]; intros [| c2 p2] H1 H2 E; cbn in E.
  - injection E as E. auto.
  - injection E as Ec _. apply no_dash_cons in H2 as [Hc _]. congruence.
  - injection E as Ec _. apply no_dash_cons in H1 as [Hc _]. congruence.
  - injection E as Ec E. subst c2.
    apply no_dash_cons in H1 as [_ H1]. apply no_dash_cons in H2 as [_ H2].
    destruct (IH p2 H1 H2 E) as [-> ->]. auto.
Qed.

End GroupingMore.

(** X10.  Grouping loses no quote: the result is never longer than the input
    and, for every quote of the input, holds a group of the quote's key with
    an entry under the quote's lower-cased book, the entry of the last quote
    of that key and book. *)
Theorem groupedProps_covers_quotes (allProps : list Quote.t) (prop : Quote.t) :
  In prop allProps ->
  length (groupedProps allProps) <= length allProps
  /\ exists g last,
       In g (groupedProps allProps)
       /\ grouped_key g = quote_key prop
       /\ last_quote_for (quote_key prop) (toLowerCase (Quote.sportsbook prop)) allProps
          = Some last
       /\ Grouped.books g !! toLowerCase (Quote.sportsbook prop)
          = Some (book_entry last).
Proof.
  intros Hin. split.
  - rewrite <- (length_map grouped_key), groupedProps_keys.
    etransitivity; [apply first_seen_length | now rewrite length_map].
  - destruct (group_of_key allProps (quote_key prop)) as (g & Hg & Hk);
      [now apply in_map |].
    destruct (last_quote_for_some allProps prop Hin) as [last Hlast].
    exists g, last. repeat split; try assumption.
    destruct (groupedProps_entry_ok _ _ Hg) as [_ Hbooks].
    now rewrite Hbooks, Hk, Hlast.
Qed.

(** X11.  Grouping invents nothing: every group of the result has at least
    one book entry, and each of its entries is the entry of a quote of the
    input with the key of the group and, lower-cased, the book of the
    entry. *)
Theorem groupedProps_entries_from_quotes (allProps : list Quote.t) (g : Grouped.t) :
  In g (groupedProps allProps) ->
  (exists book e, Grouped.books g !! book = Some e)
  /\ forall book e,
       Grouped.books g !! book = Some e ->
       exists prop,
         In prop allProps
         /\ quote_key prop = grouped_key g
         /\ toLowerCase (Quote.sportsbook prop) = book
         /\ e = book_entry prop.
Proof.
  intros Hg. destruct (groupedProps_entry_ok _ _ Hg) as [(q0 & Hfirst & _) Hbooks].
  split.
  - destruct Hfirst as (before & after & -> & Hk & _).
    assert (Hin : In q0 (before ++ q0 :: after)) by (apply in_elt).
    destruct (last_quote_for_some _ q0 Hin) as [last Hlast].
    exists (toLowerCase (Quote.sportsbook q0)), (book_entry last).
    now rewrite Hbooks, <- Hk, Hlast.
  - intros book e He. rewrite Hbooks in He.
    destruct (last_quote_for _ _ _) as [q |] eqn:E; [| discriminate].
    injection He as <-. apply last_quote_for_spec in E as (Hin & Hk & Hb).
    exists q. auto.
Qed.

(** X12.  On a group of the result, the line-mismatch flag is set exactly
    when the input has a DraftKings quote and a FanDuel quote of the key of
    the group and the last of each differ in their lines. *)
Theorem lineMismatch_of_grouped (allProps : list Quote.t) (g : Grouped.t) :
  In g (groupedProps allProps) ->
  lineMismatch g = true
  <-> exists dk fd,
        last_quote_for (grouped_key g) "draftkings" allProps = Some dk
        /\ last_quote_for (grouped_key g) "fanduel" allProps = Some fd
        /\ line_strict_ne (Quote.line dk) (Quote.line fd) = true.
Proof.
  intros Hg. destruct (groupedProps_entry_ok _ _ Hg) as [_ Hbooks].
  unfold lineMismatch. rewrite !Hbooks.
  destruct (last_quote_for _ "draftkings" _) as [dk |];
    destruct (last_quote_for _ "fanduel" _) as [fd |]; cbn.
  - split; [intros H; exists dk, fd; auto | intros (? & ? & [= <-] & [= <-] & H); exact H].
  - split; [discriminate | intros (? & ? & _ & [=] & _)].
  - split; [discriminate | intros (? & ? & [=] & _)].
  - split; [discriminate | intros (? & ? & [=] & _)].
Qed.

(** X13.  When neither player name holds a "-", two (player, prop type)
    pairs have the same composite key only if they are the same pair: the
    favorites and the groups then never mix two players. *)
Theorem composite_key_distinct (p1 t1 p2 t2 : string) :
  no_dash p1 = true -> no_dash p2 = true ->
  composite_key p1 t1 = composite_key p2 t2 <-> p1 = p2 /\ t1 = t2.
Proof.
  intros H1 H2. split.
  - now apply composite_key_injective.
  - now intros [-> ->].
Qed.

(** X14.  When no player name holds a "-", the footer's count of unique
    players is at most the number of grouped props, which is at most the
    number of quotes. *)
Theorem uniquePlayers_bound (st : State) :
  Forall (fun prop => no_dash (Quote.player prop) = true) (allProps st) ->
  uniquePlayers st <= length (groupedProps (allProps st))
  /\ length (groupedProps (allProps st)) <= length (allProps st).
Proof.
  intros Hdash. split.
  - unfold uniquePlayers. rewrite <- (length_map Grouped.player).
    apply List.NoDup_incl_length; [apply NoDup_first_seen |].
    intros p Hp. apply (proj1 (in_first_seen _ _)) in Hp.
    apply in_map_iff in Hp as (q & <- & Hq).
    destruct (group_of_key (allProps st) (quote_key q)) as (g & Hg & Hk);
      [now apply in_map |].
    destruct (groupedProps_entry_ok _ _ Hg)
      as [(q0 & (before & after & E & Hk0 & _) & Hplayer & Htype & _) _].
    assert (Hq0 : In q0 (allProps st)) by (rewrite E; apply in_elt).
    rewrite List.Forall_forall in Hdash.
    destruct (composite_key_injective (Quote.player q0) (Quote.prop_type q0)
                (Quote.player q) (Quote.prop_type q)) as [Hp _];
      [now apply Hdash | now apply Hdash | |].
    + fold (quote_key q0) (quote_key q). congruence.
    + apply in_map_iff. exists g. split; [congruence | assumption].
  - rewrite <- (length_map grouped_key), groupedProps_keys.
    etransitivity; [apply first_seen_length | now rewrite length_map].
Qed.

(** ** The filter/sort pipeline: what is kept and in which order *)

Section PipelineMore.

Context `{Collator}.

Lemma in_filtered (st : State) (data : list item) (i : item) :
  In i (filtered st data) <-> In i data /\ passes_filters st i = true.
Proof.
  unfold filtered, passes_filters. rewrite !in_filter_if.
  destruct (search_active st), (propType_active st), (showFavorites st),
    (book_active st); cbn [negb orb];
    rewrite ?andb_true_iff, ?andb_true_l; intuition congruence.
Qed.

Lemma sort_insert_HdRel {A} (cmp : A -> A -> num) (R : A -> A -> Prop) (y x : A)
  (l : list A) :
  HdRel R y l -> R y x -> HdRel R y (sort_insert cmp x l).
Proof.
  intros Hhd Hyx. destruct l as [| z l]; cbn [sort_insert]; [now constructor |].
  destruct (gt (cmp x z) (Fin 0)); constructor; [| assumption].
  now inversion Hhd.
Qed.

(** After sorting, no element is followed by one that the comparator wants
    before it, as soon as the comparator never wants both orders of a
    pair. *)
Lemma array_sort_Sorted {A} (cmp : A -> A -> num) (l : list A) :
  (forall a b, gt (cmp a b) (Fin 0) = true -> gt (cmp b a) (Fin 0) = false) ->
  Sorted (fun a b => gt (cmp a b) (Fin 0) = false) (array_sort cmp l).
Proof.
  intros Hanti. induction l as [| x l IH]; cbn [array_sort]; [constructor |].
  induction IH as [| y l' Hl' IHl' Hhd]; cbn [sort_insert]; [repeat constructor |].
  destruct (gt (cmp x y) (Fin 0)) eqn:E.
  - constructor; [exact IHl' |].
    apply sort_insert_HdRel; [assumption | now apply Hanti].
  - constructor; [now constructor | now constructor].
Qed.

Lemma filter_sort_insert {A} (cmp : A -> A -> num) (p : A -> bool) (x : A) (l : list A) :
  (forall y, p x = true -> gt (cmp x y) (Fin 0) = true -> p y = false) ->
  List.filter p (sort_insert cmp x l) = List.filter p (x :: l).
Proof.
  intros Hp. induction l as [| y l IH]; [reflexivity |].
  cbn [sort_insert]. destruct (gt (cmp x y) (Fin 0)) eqn:E; [| reflexivity].
  cbn [List.filter] in *. rewrite IH.
  destruct (p x) eqn:Ex; [| reflexivity].
  now rewrite (Hp y eq_refl E).
Qed.

Lemma filter_array_sort {A} (cmp : A -> A -> num) (p : A -> bool) (l : list A) :
  (forall x y, p x = true -> gt (cmp x y) (Fin 0) = true -> p y = false) ->
  List.filter p (array_sort cmp l) = List.filter p l.
Proof.
  intros Hp. induction l as [| x l IH]; [reflexivity |].
  cbn [array_sort]. rewrite filter_sort_insert by (apply Hp).
  cbn [List.filter]. now rewrite IH.
Qed.

Lemma tab_compare_profit (tab : Tab) :
  tab <> TabAll ->
  tab_compare tab "profit"
  = Some (fun a b => sub (tab_rank tab b) (tab_rank tab a)).
Proof. destruct tab; [congruence | reflexivity ..]. Qed.

Lemma tab_compare_by_player (tab : Tab) (sortBy : string) :
  tab <> TabAll -> String.eqb sortBy "profit" = false ->
  tab_compare tab sortBy = Some by_player.
Proof.
  intros Htab E. unfold tab_compare. rewrite E.
  destruct tab; [congruence | reflexivity ..].
Qed.

Lemma gt_sub_fin (x y : Q) :
  gt (sub (Fin y) (Fin x)) (Fin 0) = true <-> (x < y)%Q.
Proof.
  unfold sub, neg, add, fin, gt.
  destruct (Qred (y + Qred (- x)) ?= 0)%Q eqn:E.
  - apply Qeq_alt in E. rewrite !Qred_correct in E. split; [discriminate | lra].
  - apply Qlt_alt in E. rewrite !Qred_correct in E. split; [discriminate | lra].
  - apply Qgt_alt in E. rewrite !Qred_correct in E. split; [lra | reflexivity].
Qed.

Lemma num_ge_fin (x y : Q) : num_ge (Fin x) (Fin y) = true <-> (y <= x)%Q.
Proof.
  unfold num_ge. destruct (x ?= y)%Q eqn:E.
  - apply Qeq_alt in E. split; [lra | reflexivity].
  - apply Qlt_alt in E. split; [discriminate | lra].
  - apply Qgt_alt in E. split; [lra | reflexivity].
Qed.

(** The comparator by value never wants both orders of a pair, whatever the
    ranks. *)
Lemma rank_compare_antisym (a b : num) :
  gt (sub b a) (Fin 0) = true -> gt (sub a b) (Fin 0) = false.
Proof.
  destruct a as [x | | |], b as [y | | |]; try reflexivity; try discriminate.
  intros Hxy. apply gt_sub_fin in Hxy. apply not_true_is_false.
  rewrite gt_sub_fin. lra.
Qed.

Lemma sort_insert_by_rank (rank : item -> num) (x : item) (l : list item) :
  is_finite (rank x) -> Forall (fun i => is_finite (rank i)) l ->
  StronglySorted (fun a b => num_ge (rank a) (rank b) = true) l ->
  StronglySorted (fun a b => num_ge (rank a) (rank b) = true)
    (sort_insert (fun a b => sub (rank b) (rank a)) x l).
Proof.
  intros Hx Hfin Hsorted.
  induction Hsorted as [| y l Hl IH Hy]; cbn [sort_insert]; [repeat constructor |].
  inversion Hfin as [| ? ? Hfy Hfl]; subst.
  destruct (rank x) as [qx | | |] eqn:Ex; try contradiction.
  destruct (rank y) as [qy | | |] eqn:Ey; try contradiction.
  destruct (gt (sub (Fin qy) (Fin qx)) (Fin 0)) eqn:E.
  - apply gt_sub_fin in E. constructor; [now apply IH |].
    cbv beta. rewrite Ey.
    apply (Permutation_Forall (sort_insert_perm _ x l)).
    constructor; [| exact Hy].
    rewrite Ex. apply num_ge_fin. lra.
  - assert (Hle : (qy <= qx)%Q).
    { destruct (Qlt_le_dec qx qy) as [Hlt | Hle]; [| exact Hle].
      apply gt_sub_fin in Hlt. congruence. }
    constructor.
    + constructor; [exact Hl |]. cbv beta. rewrite Ey. exact Hy.
    + cbv beta. rewrite Ex.
      constructor; [rewrite Ey; now apply num_ge_fin |].
      rewrite List.Forall_forall in Hy, Hfl |- *. intros z Hz.
      specialize (Hy z Hz). specialize (Hfl z Hz).
      destruct (rank z) as [qz | | |]; try contradiction.
      apply num_ge_fin in Hy. apply num_ge_fin. lra.
Qed.

Lemma array_sort_by_rank (rank : item -> num) (l : list item) :
  Forall (fun i => is_finite (rank i)) l ->
  StronglySorted (fun a b => num_ge (rank a) (rank b) = true)
    (array_sort (fun a b => sub (rank b) (rank a)) l).
Proof.
  induction 1 as [| x l Hx Hl IH]; cbn [array_sort]; [constructor |].
  apply sort_insert_by_rank; [assumption | | assumption].
  now apply (Permutation_Forall (array_sort_perm _ l)).
Qed.

Lemma gt_ofZ_pos (z : Z) : gt (ofZ z) (Fin 0) = true <-> (0 < z)%Z.
Proof.
  split.
  - intros Hgt. destruct (Z_lt_le_dec 0 z) as [Hz | Hz]; [exact Hz |].
    rewrite (gt_ofZ_nonpos z Hz) in Hgt. discriminate.
  - intros Hz. apply gt_fin_zero_true. unfold Qlt. cbn. lia.
Qed.

Lemma Sorted_weaken {A} (R R' : A -> A -> Prop) (l : list A) :
  (forall a b, R a b -> R' a b) -> Sorted R l -> Sorted R' l.
Proof.
  intros HR. induction 1 as [| x l Hl IH Hhd]; constructor; [exact IH |].
  destruct Hhd; constructor. now apply HR.
Qed.

Lemma filter_if_length {A} (active : bool) (keep : A -> bool) (data : list A) :
  length (filter_if active keep data) <= length data.
Proof. destruct active; [apply List.filter_length_le | reflexivity]. Qed.

Lemma lower_ascii_idem (c : ascii) : lower_ascii (lower_ascii c) = lower_ascii c.
Proof. destruct c as [[] [] [] [] [] [] [] []]; reflexivity. Qed.

Lemma toLowerCase_idem (s : string) : toLowerCase (toLowerCase s) = toLowerCase s.
Proof.
  induction s as [| c s IH]; [reflexivity |].
  cbn [toLowerCase]. now rewrite lower_ascii_idem, IH.
Qed.

Lemma lower_upper_ascii (c : ascii) : lower_ascii (upper_ascii c) = lower_ascii c.
Proof. destruct c as [[] [] [] [] [] [] [] []]; reflexivity. Qed.

Lemma toLowerCase_toUpperCase (s : string) :
  toLowerCase (toUpperCase s) = toLowerCase s.
Proof.
  induction s as [| c s IH]; [reflexivity |].
  cbn [toLowerCase toUpperCase]. now rewrite lower_upper_ascii, IH.
Qed.

Lemma toLowerCase_empty (s : string) : toLowerCase s = "" <-> s = "".
Proof. destruct s; cbn [toLowerCase]; split; congruence. Qed.

(** X15.  The result of the pipeline holds exactly the elements of the base
    collection of the tab that every active filter keeps, and is never longer
    than the base collection. *)
Theorem filteredData_membership (st : State) (i : item) :
  (In i (filteredData st) <-> In i (base_data st) /\ passes_filters st i = true)
  /\ length (filteredData st) <= length (base_data st).
Proof.
  unfold filteredData. split.
  - rewrite <- (Permutation_in' eq_refl (sorted_perm st _)). apply in_filtered.
  - rewrite <- (Permutation_length (sorted_perm st _)). unfold filtered.
    repeat (etransitivity; [apply filter_if_length |]). reflexivity.
Qed.

(** X16.  Sorted by value, a tab whose records all have a finite rank comes
    out in descending order of rank: no element is ranked below any element
    after it. *)
Theorem filteredData_sorted_by_value (st : State) :
  activeTab st <> TabAll -> sortBy st = "profit" ->
  Forall (fun i => is_finite (tab_rank (activeTab st) i)) (base_data st) ->
  StronglySorted
    (fun a b => num_ge (tab_rank (activeTab st) a) (tab_rank (activeTab st) b) = true)
    (filteredData st).
Proof.
  intros Htab Hsort Hfin. unfold filteredData, sorted.
  rewrite Hsort, (tab_compare_profit _ Htab).
  apply array_sort_by_rank.
  rewrite List.Forall_forall in Hfin |- *. intros i Hi.
  apply Hfin. now apply in_filtered in Hi.
Qed.

(** X17.  The sort by value is stable: on a tab whose records all have a
    finite rank, the records of one rank come out in the order in which they
    passed the filters, whatever the other ranks are.  (A record without its
    rank makes the comparator inconsistent, and the order is then the
    engine's.) *)
Theorem filteredData_sort_stable (st : State) (r : Q) :
  activeTab st <> TabAll -> sortBy st = "profit" ->
  Forall (fun i => is_finite (tab_rank (activeTab st) i)) (base_data st) ->
  List.filter (has_rank (activeTab st) r) (filteredData st)
  = List.filter (has_rank (activeTab st) r) (filtered st (base_data st)).
Proof.
  intros Htab Hsort Hfin. unfold filteredData, sorted.
  rewrite Hsort, (tab_compare_profit _ Htab).
  apply filter_array_sort. intros x y Hx Hgt. unfold has_rank in *.
  destruct (tab_rank (activeTab st) x) as [qx | | |]; try discriminate.
  destruct (tab_rank (activeTab st) y) as [qy | | |]; try reflexivity.
  apply gt_sub_fin in Hgt. apply Qeq_bool_iff in Hx.
  apply not_true_is_false. intros Hy. apply Qeq_bool_iff in Hy. lra.
Qed.

(** X18.  Sorted by player, a tab other than "all" comes out in ascending
    order of player name, for any collation that never puts two names both
    ways round. *)
Theorem filteredData_sorted_by_player (st : State) :
  (forall a b : string, (0 < localeCompare a b)%Z -> (localeCompare b a <= 0)%Z) ->
  activeTab st <> TabAll -> sortBy st <> "profit" ->
  player_sorted (filteredData st).
Proof.
  intros Hanti Htab Hsort. unfold filteredData, sorted, player_sorted.
  apply String.eqb_neq in Hsort. rewrite (tab_compare_by_player _ _ Htab Hsort).
  eapply Sorted_weaken; [| apply array_sort_Sorted].
  - intros a b Hab. cbv beta in Hab. unfold by_player in Hab.
    destruct (Z_lt_le_dec 0 (localeCompare (item_player a) (item_player b)))
      as [Hlt | Hle]; [| exact Hle].
    apply gt_ofZ_pos in Hlt. congruence.
  - intros a b Hab. unfold by_player in *. apply gt_ofZ_pos in Hab.
    apply gt_ofZ_nonpos. now apply Hanti.
Qed.

(** X19.  The search does not look at the case of the query: two queries
    with the same lower-case form give the same result; so do a query of
    ASCII characters and its upper-case form.  (Beyond ASCII the upper-case
    form of a string need not have the lower-case form of the string.) *)
Theorem filteredData_search_case (st : State) (q q' : string) :
  toLowerCase q = toLowerCase q' -> ascii_only q = true ->
  filteredData (setSearchQuery q st) = filteredData (setSearchQuery q' st)
  /\ filteredData (setSearchQuery (toUpperCase q) st)
     = filteredData (setSearchQuery q st).
Proof.
  assert (Hgen : forall a b, toLowerCase a = toLowerCase b ->
                 filteredData (setSearchQuery a st) = filteredData (setSearchQuery b st)).
  { intros a b Hab. unfold filteredData.
    change (sorted (setSearchQuery a st)) with (sorted st).
    change (sorted (setSearchQuery b st)) with (sorted st).
    f_equal. unfold filtered.
    change (base_data (setSearchQuery a st)) with (base_data st).
    change (base_data (setSearchQuery b st)) with (base_data st).
    assert (Hact : search_active (setSearchQuery a st)
                   = search_active (setSearchQuery b st)).
    { unfold search_active. cbn [setSearchQuery searchQuery].
      destruct (String.eqb a "") eqn:Ea, (String.eqb b "") eqn:Eb; try reflexivity.
      - apply String.eqb_eq in Ea. apply String.eqb_neq in Eb. subst a.
        cbn [toLowerCase] in Hab. symmetry in Hab.
        apply (proj1 (toLowerCase_empty b)) in Hab. contradiction.
      - apply String.eqb_eq in Eb. apply String.eqb_neq in Ea. subst b.
        cbn [toLowerCase] in Hab.
        apply (proj1 (toLowerCase_empty a)) in Hab. contradiction. }
    assert (Hkeep : search_keep (setSearchQuery a st) = search_keep (setSearchQuery b st)).
    { unfold search_keep. cbn [setSearchQuery searchQuery]. now rewrite Hab. }
    rewrite Hact, Hkeep. reflexivity. }
  intros Hq Hascii. split; [now apply Hgen |].
  apply Hgen, toLowerCase_toUpperCase.
Qed.

End PipelineMore.

(** ** The fetch batch and the manual refresh *)

(** X20.  When the six requests of a batch succeed and their bodies parse,
    [fetchAllData] stores the six payloads, clears the error and the loading
    flag. *)
Theorem fetchAllData_success (b : Batch) (st : State) (d : Payload) :
  propsReq b = Normal (mkResponse true (Normal (propsData d))) ->
  arbReq b = Normal (mkResponse true (Normal (arbData d))) ->
  discReq b = Normal (mkResponse true (Normal (discData d))) ->
  oddsReq b = Normal (mkResponse true (Normal (oddsData d))) ->
  valueReq b = Normal (mkResponse true (Normal (valueData d))) ->
  consensusReq b = Normal (mkResponse true (Normal (consensusData d))) ->
  let st' := fetchAllData b st in
  allProps st' = propsData d /\ arbitrage st' = arbData d
  /\ discrepancies st' = discData d /\ bestOdds st' = oddsData d
  /\ valueBets st' = valueData d /\ consensusBets st' = consensusData d
  /\ error st' = Null /\ loading st' = false.
Proof.
  intros H1 H2 H3 H4 H5 H6. unfold fetchAllData, fetch_try.
  rewrite H1, H2, H3, H4, H5, H6. cbn. repeat split.
Qed.

(** X21.  A batch replaces the snapshot as a whole: after two batches the
    state is what the second alone gives, whatever the first was; and a batch
    leaves the tab, the filters, the sort key, the favorites, the storage and
    the scraping flag alone. *)
Theorem fetchAllData_replaces_snapshot (b1 b2 : Batch) (st : State) :
  fetchAllData b2 (fetchAllData b1 st) = fetchAllData b2 st
  /\ activeTab (fetchAllData b1 st) = activeTab st
  /\ searchQuery (fetchAllData b1 st) = searchQuery st
  /\ selectedPropType (fetchAllData b1 st) = selectedPropType st
  /\ selectedBook (fetchAllData b1 st) = selectedBook st
  /\ sortBy (fetchAllData b1 st) = sortBy st
  /\ showFavorites (fetchAllData b1 st) = showFavorites st
  /\ favorites (fetchAllData b1 st) = favorites st
  /\ localStorage (fetchAllData b1 st) = localStorage st
  /\ isScraping (fetchAllData b1 st) = isScraping st.
Proof.
  unfold fetchAllData.
  destruct (fetch_try b1), (fetch_try b2); repeat split.
Qed.

(** X22.  [handleFullRefresh] does nothing while a fetch or a scrape is
    running; otherwise, however the scrape and the fetch end, it leaves the
    scraping flag cleared and the auto-refresh switched off, so that no
    interval is set. *)
Theorem handleFullRefresh_flags (scrape : completion ScrapeResponse) (b : Batch)
  (app : App) (hasDate : bool) :
  (loading (app_state app) || isScraping (app_state app) = true ->
   handleFullRefresh scrape b app = app)
  /\ (loading (app_state app) || isScraping (app_state app) = false ->
      isScraping (app_state (handleFullRefresh scrape b app)) = false
      /\ autoRefresh (handleFullRefresh scrape b app) = false
      /\ interval_set hasDate (handleFullRefresh scrape b app) = false).
Proof.
  unfold handleFullRefresh. split; intros ->; [reflexivity |].
  repeat split.
Qed.

(** X23.  When the scrape request is rejected or answers with a non-success
    status, [handleFullRefresh] keeps the six collections as they were, does
    not use the fetch batch, and sets the error: to the [error] text of the
    response body when there is a non-empty one. *)
Theorem handleFullRefresh_scrape_failure (scrape : completion ScrapeResponse)
  (b : Batch) (app : App) :
  loading (app_state app) = false -> isScraping (app_state app) = false ->
  (forall res, scrape = Normal res -> scrape_ok res = false) ->
  let st := app_state app in
  let st' := app_state (handleFullRefresh scrape b app) in
  allProps st' = allProps st /\ arbitrage st' = arbitrage st
  /\ discrepancies st' = discrepancies st /\ bestOdds st' = bestOdds st
  /\ valueBets st' = valueBets st /\ consensusBets st' = consensusBets st
  /\ (exists message, error st' = Val message)
  /\ (forall b', handleFullRefresh scrape b' app = handleFullRefresh scrape b app)
  /\ (forall text, scrape = Normal (mkScrapeResponse false (Normal (Val text))) ->
                   text <> "" -> error st' = Val text).
Proof.
  intros Hl Hs Hfail. unfold handleFullRefresh. rewrite Hl, Hs. cbn [orb].
  assert (Hthrow : exists m, scrape_try scrape = Throw m).
  { unfold scrape_try, cbind. destruct scrape as [res | m]; [| eauto].
    rewrite (Hfail res eq_refl). cbn [negb]. eauto. }
  destruct Hthrow as [m Hm]. rewrite Hm. cbn.
  repeat split; eauto.
  intros text -> Htext. unfold scrape_try, cbind in Hm. cbn in Hm.
  apply String.eqb_neq in Htext. rewrite Htext in Hm. cbn in Hm. congruence.
Qed.

(** X24.  When the scrape succeeds, [handleFullRefresh] ends with the
    collections and the error of [fetchAllData] on the batch. *)
Theorem handleFullRefresh_scrape_success (res : ScrapeResponse) (b : Batch) (app : App) :
  loading (app_state app) = false -> isScraping (app_state app) = false ->
  scrape_ok res = true ->
  let st' := app_state (handleFullRefresh (Normal res) b app) in
  let fetched := fetchAllData b (app_state app) in
  allProps st' = allProps fetched /\ arbitrage st' = arbitrage fetched
  /\ discrepancies st' = discrepancies fetched /\ bestOdds st' = bestOdds fetched
  /\ valueBets st' = valueBets fetched /\ consensusBets st' = consensusBets fetched
  /\ error st' = error fetched /\ loading st' = false.
Proof.
  intros Hl Hs Hok. unfold handleFullRefresh, scrape_try, cbind.
  rewrite Hl, Hs, Hok. cbn [orb negb]. unfold fetchAllData.
  destruct (fetch_try b); repeat split.
Qed.

(** ** The prop-type options *)

Section PropTypes.

Implicit Types (types : list (field string)) (v w : field string).

Lemma field_eqb_eq v w : field_eqb v w = true <-> v = w.
Proof.
  destruct v as [| | x], w as [| | y]; cbn; try (split; congruence).
  rewrite String.eqb_eq. split; congruence.
Qed.

Lemma in_set_add types v w : In w (set_add types v) <-> In w types \/ w = v.
Proof.
  unfold set_add. destruct (existsb (field_eqb v) types) eqn:E.
  - split; [auto |]. intros [Hw | ->]; [assumption |].
    apply existsb_exists in E as (x & Hx & Ex).
    apply field_eqb_eq in Ex. now subst.
  - rewrite in_app_iff. cbn [In]. intuition.
Qed.

Lemma NoDup_set_add types v : List.NoDup types -> List.NoDup (set_add types v).
Proof.
  intros Hnd. unfold set_add. destruct (existsb (field_eqb v) types) eqn:E;
    [assumption |].
  apply List.NoDup_app; [assumption | repeat constructor; intros [] |].
  intros x Hx [<- | []].
  assert (existsb (field_eqb v) types = true); [| congruence].
  apply existsb_exists. exists v. split; [assumption | now apply field_eqb_eq].
Qed.

Lemma fold_set_add {A} (f : A -> field string) (l : list A) types w :
  In w (fold_left (fun types x => set_add types (f x)) l types)
  <-> In w types \/ exists x, In x l /\ w = f x.
Proof.
  revert types. induction l as [| a l IH]; intros types; cbn [fold_left].
  - split; [auto | intros [? | (x & [] & _)]; assumption].
  - rewrite IH, in_set_add. split.
    + intros [[Hw | ->] | (x & Hx & ->)]; eauto.
      * right. exists a. split; [now left | reflexivity].
      * right. exists x. split; [now right | reflexivity].
    + intros [Hw | (x & [<- | Hx] & ->)]; eauto.
Qed.

Lemma NoDup_fold_set_add {A} (f : A -> field string) (l : list A) types :
  List.NoDup types ->
  List.NoDup (fold_left (fun types x => set_add types (f x)) l types).
Proof.
  revert types. induction l as [| a l IH]; intros types Hnd; cbn [fold_left];
    [assumption |].
  apply IH. now apply NoDup_set_add.
Qed.

End PropTypes.

(** X25.  The prop-type options start with "all"; after it come, each once,
    the prop types of the quotes, of the value bets and of the consensus bets,
    and nothing else: a prop type that only the arbitrage, discrepancy or
    best-odds records have is not offered. *)
Theorem propTypes_options (st : State) :
  exists rest,
    propTypes st = Val "all" :: rest
    /\ List.NoDup rest
    /\ forall v,
         In v rest
         <-> (exists prop, In prop (allProps st) /\ v = Val (Quote.prop_type prop))
             \/ (exists bet, In bet (valueBets st) /\ v = Opp.prop_type bet)
             \/ (exists bet, In bet (consensusBets st) /\ v = Opp.prop_type bet).
Proof.
  exists (array_sort default_compare (propTypes_set st)).
  split; [reflexivity |]. split.
  - apply (Permutation_NoDup (array_sort_perm _ _)).
    unfold propTypes_set. repeat apply NoDup_fold_set_add. constructor.
  - intros v. rewrite <- (Permutation_in' eq_refl (array_sort_perm _ _)).
    unfold propTypes_set. rewrite !fold_set_add. cbn [In]. tauto.
Qed.

(** ** Odds on screen *)

(** X26.  The colour of odds goes with their text: green exactly when the
    text has a "+", which is when the odds are a number above 0; grey exactly
    when the text is "-", which is when the odds are missing. *)
Theorem getOddsColor_matches_formatOdds (odds : field num) :
  (getOddsColor odds = "text-green-400"
   <-> exists n, formatOdds odds = OddsPlus n)
  /\ ((exists n, formatOdds odds = OddsPlus n)
      <-> exists n, odds = Val n /\ gt n (Fin 0) = true)
  /\ (getOddsColor odds = "text-gray-400" <-> formatOdds odds = OddsDash)
  /\ (formatOdds odds = OddsDash <-> odds = Absent \/ odds = Null).
Proof.
  destruct odds as [| | n]; cbn [getOddsColor formatOdds];
    [| | destruct (gt n (Fin 0)) eqn:E];
    repeat split; intros;
    repeat match goal with
      | H : exists _, _ |- _ => destruct H
      | H : _ /\ _ |- _ => destruct H
      | H : _ \/ _ |- _ => destruct H
      | H : Val _ = Val _ |- _ => injection H as <-
      end;
    try discriminate; try congruence; eauto.
Qed.

(** ** The best-side badge *)

Section Badge.




End Badge.


(** ** The footer *)

(** X28.  One arbitrage record without [profit_percent] makes the total of
    the footer NaN, wherever the record stands and whatever the others
    hold. *)
Theorem totalArbProfit_missing (st : State) (arb : Opp.t) :
  In arb (arbitrage st) -> Opp.profit_percent arb = Absent ->
  totalArbProfit st = NaN.
Proof.
  intros Hin Hmissing. unfold totalArbProfit.
  apply in_split in Hin as (l1 & l2 & ->).
  rewrite fold_left_app. cbn [fold_left]. rewrite Hmissing. cbn [toNumber].
  assert (Hnan : forall n, add n NaN = NaN) by (intros []; reflexivity).
  rewrite Hnan. clear. induction l2 as [| a l2 IH]; [reflexivity | exact IH].
Qed.

(** ** The arbitrage view *)

Section ArbitrageView.

Context `{Collator}.

Lemma calculateStakes_returns (overOdds underOdds totalStake : field num) :
  exists r, calculateStakes overOdds underOdds totalStake = Normal r.
Proof.
  unfold calculateStakes. destruct (is_null overOdds || is_null underOdds); eauto.
Qed.

Lemma arbitrage_row_returns (st : State) (i : item) :
  (exists row, arbitrage_row st i = Normal row)
  <-> exists arb t n,
        i = IOpp arb /\ Opp.prop_type arb = Val t /\ Opp.profit_percent arb = Val n.
Proof.
  destruct i as [g | arb]; cbn [arbitrage_row].
  - split; [intros [row Hrow]; discriminate | intros (? & ? & ? & [=] & _)].
  - destruct (calculateStakes_returns (Opp.over_odds arb) (Opp.under_odds arb) Absent)
      as [r ->]. cbn [cbind].
    destruct (Opp.prop_type arb) as [| | t] eqn:Et; cbn [method_on cbind];
      try (split; [intros [row Hrow]; discriminate
                  | intros (? & ? & ? & [= <-] & Ht & _); congruence]).
    destruct (Opp.profit_percent arb) as [| | n] eqn:En; cbn [method_on cbind];
      try (split; [intros [row Hrow]; discriminate
                  | intros (? & ? & ? & [= <-] & _ & Hn); congruence]).
    split; [intros _; exists arb, t, n; auto | eauto].
Qed.

Lemma map_completion_length {A B} (f : A -> completion B) (l : list A) (ys : list B) :
  map_completion f l = Normal ys -> length ys = length l.
Proof.
  revert ys. induction l as [| x l IH]; intros ys; cbn [map_completion].
  - now intros [= <-].
  - unfold cbind. destruct (f x) as [y |]; [| discriminate].
    destruct (map_completion f l) as [ys' |]; [| discriminate].
    intros [= <-]. cbn [length]. f_equal. now apply IH.
Qed.

Lemma map_completion_returns {A B} (f : A -> completion B) (l : list A) :
  (exists ys, map_completion f l = Normal ys)
  <-> Forall (fun x => exists y, f x = Normal y) l.
Proof.
  induction l as [| x l IH]; cbn [map_completion].
  - split; [constructor | eauto].
  - unfold cbind. split.
    + intros (ys & Hys).
      destruct (f x) as [y |] eqn:Ex; [| discriminate].
      destruct (map_completion f l) as [ys' |] eqn:El; [| discriminate].
      constructor; [eauto | apply IH; eauto].
    + intros Hall. inversion Hall as [| ? ? [y Hy] Hl]; subst.
      apply IH in Hl as (ys & Hys). rewrite Hy, Hys. eauto.
Qed.

(** X29.  The arbitrage view renders exactly when every element it is given
    is a record with a [prop_type] and a [profit_percent]: one record that
    [filteredData] lets through without [profit_percent] makes the whole view
    throw.  When it renders, it shows one card per element. *)
Theorem arbitrageView_returns_iff (st : State) :
  ((exists rows, arbitrageView st = Normal rows)
   <-> Forall (fun i => exists arb t n,
                 i = IOpp arb /\ Opp.prop_type arb = Val t
                 /\ Opp.profit_percent arb = Val n)
         (filteredData st))
  /\ forall rows, arbitrageView st = Normal rows ->
                  length rows = length (filteredData st).
Proof.
  unfold arbitrageView. split.
  - rewrite map_completion_returns. rewrite !List.Forall_forall.
    split; intros Hall i Hi.
    + apply (proj1 (arbitrage_row_returns st i)), Hall, Hi.
    + apply (proj2 (arbitrage_row_returns st i)), Hall, Hi.
  - intros rows. apply map_completion_length.
Qed.

(** ** The earlier version of the pipeline *)

(** X30.  On the tabs that the earlier version of the component has, its
    pipeline returns what the pipeline of the present version returns: always
    on the "all", arbitrage and discrepancies tabs, and on the best-odds tab
    when the sportsbook filter is at "all". *)
Theorem filteredData_v1_agrees (st : State) :
  activeTab st = TabAll \/ activeTab st = TabArbitrage
  \/ activeTab st = TabDiscrepancies
  \/ (activeTab st = TabBestOdds /\ selectedBook st = "all") ->
  filteredData_v1 st = filteredData st.
Proof.
  intros Htab. unfold filteredData_v1, filteredData, sorted, filtered_v1, filtered.
  assert (Hbook : book_active st = false).
  { unfold book_active. destruct Htab as [-> | [-> | [-> | [-> ->]]]]; cbn;
      try apply andb_false_r; reflexivity. }
  rewrite Hbook. cbn [filter_if]. unfold base_data_v1, base_data.
  destruct Htab as [-> | [-> | [-> | [-> _]]]]; reflexivity.
Qed.

End ArbitrageView.

(** ** Instances of the further properties on the sample data *)

Lemma codeUnitCollator_antisym (a b : string) :
  (0 < @localeCompare codeUnitCollator a b)%Z ->
  (@localeCompare codeUnitCollator b a <= 0)%Z.
Proof.
  unfold localeCompare, codeUnitCollator.
  rewrite (String.compare_antisym a b).
  destruct (String.compare b a); cbn; lia.
Qed.

(** Witness for X1: odds +150 and -170. *)
Lemma calculateStakes_stakes_sum_witness :
  exists r,
    Double.calculateStakes (Val (Double.ofZ 150)) (Val (Double.ofZ (-170))) Absent
    = Normal r
    /\ (Double.stakeOver r + Double.stakeUnder r =? 100)%float = true.
Proof. apply (calculateStakes_stakes_sum 150 (-170)); reflexivity. Defined.

(** Witness for X2: odds +150 and -120, an arbitrage. *)
Lemma calculateStakes_profit_sign_witness :
  exists r,
    Double.calculateStakes (Val (Double.ofZ 150)) (Val (Double.ofZ (-120))) Absent
    = Normal r
    /\ (0 <? Double.profit r)%float = true.
Proof.
  destruct (calculateStakes_profit_sign 150 (-120) eq_refl eq_refl)
    as (r & Hr & Hlt & _).
  exists r. split; [exact Hr | apply Hlt; reflexivity].
Defined.

(** Witness for X3: odds +150 and -170. *)
Lemma calculateStakes_stakes_between_witness :
  exists r,
    Double.calculateStakes (Val (Double.ofZ 150)) (Val (Double.ofZ (-170))) Absent
    = Normal r
    /\ (0 <? Double.stakeOver r)%float = true
    /\ (Double.stakeOver r <? 100)%float = true
    /\ (0 <? Double.stakeUnder r)%float = true
    /\ (Double.stakeUnder r <? 100)%float = true.
Proof. apply (calculateStakes_stakes_between 150 (-170)); reflexivity. Defined.

(** Witness for X4: odds -110 and +120. *)
Lemma decimalMultiplier_monotone_witness :
  decimalMultiplier (Val (ofZ (-110))) = Fin (multiplier_of (-110))
  /\ decimalMultiplier (Val (ofZ 120)) = Fin (multiplier_of 120)
  /\ (multiplier_of (-110) <= multiplier_of 120)%Q.
Proof. apply (decimalMultiplier_monotone (-110) 120); lia. Defined.

(** Witness for X5: odds +150. *)
Lemma decimalMultiplier_opposite_witness :
  Double.within Double.tolerance
    ((Double.decimalMultiplier (Val (Double.ofZ 150)) - 1)
     * (Double.decimalMultiplier (Val (Double.ofZ (- 150))) - 1))%float
    1%float = true.
Proof. apply (decimalMultiplier_opposite 150). reflexivity. Defined.

(** Witness for X6: with A-points and B-points the favorites, a toggle of
    A-points removes it, and a toggle of C-points adds it. *)
Lemma toggleFavorite_no_duplicates_witness :
  (List.NoDup (favorites (toggleFavorite "A" "points" sample_favorites_state))
   /\ S (length (favorites (toggleFavorite "A" "points" sample_favorites_state)))
      = length (favorites sample_favorites_state))
  /\ (List.NoDup (favorites (toggleFavorite "C" "points" sample_favorites_state))
      /\ length (favorites (toggleFavorite "C" "points" sample_favorites_state))
         = S (length (favorites sample_favorites_state))).
Proof.
  assert (Hnd : List.NoDup (favorites sample_favorites_state)).
  { repeat constructor; cbn; intuition discriminate. }
  split.
  - exact (toggleFavorite_no_duplicates sample_favorites_state "A" "points" Hnd).
  - exact (toggleFavorite_no_duplicates sample_favorites_state "C" "points" Hnd).
Defined.

(** Witness for X10: the DraftKings quote of the two sample quotes. *)
Lemma groupedProps_covers_quotes_witness :
  length (groupedProps [sample_dk; sample_fd]) <= length [sample_dk; sample_fd]
  /\ exists g last,
       In g (groupedProps [sample_dk; sample_fd])
       /\ grouped_key g = quote_key sample_dk
       /\ last_quote_for (quote_key sample_dk)
            (toLowerCase (Quote.sportsbook sample_dk)) [sample_dk; sample_fd]
          = Some last
       /\ Grouped.books g !! toLowerCase (Quote.sportsbook sample_dk)
          = Some (book_entry last).
Proof.
  apply (groupedProps_covers_quotes [sample_dk; sample_fd] sample_dk).
  left. reflexivity.
Defined.

(** Witness for X11: the group of the two sample quotes. *)
Lemma groupedProps_entries_from_quotes_witness :
  (exists book e, Grouped.books sample_group !! book = Some e)
  /\ forall book e,
       Grouped.books sample_group !! book = Some e ->
       exists prop,
         In prop [sample_dk; sample_fd]
         /\ quote_key prop = grouped_key sample_group
         /\ toLowerCase (Quote.sportsbook prop) = book
         /\ e = book_entry prop.
Proof.
  apply (groupedProps_entries_from_quotes [sample_dk; sample_fd] sample_group).
  left. reflexivity.
Defined.

(** Witness for X12: the group of the two sample quotes. *)
Lemma lineMismatch_of_grouped_witness :
  lineMismatch sample_group = true
  <-> exists dk fd,
        last_quote_for (grouped_key sample_group) "draftkings" [sample_dk; sample_fd]
        = Some dk
        /\ last_quote_for (grouped_key sample_group) "fanduel" [sample_dk; sample_fd]
           = Some fd
        /\ line_strict_ne (Quote.line dk) (Quote.line fd) = true.
Proof.
  apply (lineMismatch_of_grouped [sample_dk; sample_fd] sample_group).
  left. reflexivity.
Defined.

(** Witness for X13: two plain names. *)
Lemma composite_key_distinct_witness :
  composite_key "Adams" "points" = composite_key "Brown" "points"
  <-> "Adams" = "Brown" /\ "points" = "points".
Proof. apply (composite_key_distinct "Adams" "points" "Brown" "points"); reflexivity. Defined.

(** Witness for X14: four quotes, of three props, of two players. *)
Lemma uniquePlayers_bound_witness :
  (uniquePlayers sample_four_state <= length (groupedProps (allProps sample_four_state))
   /\ length (groupedProps (allProps sample_four_state))
      <= length (allProps sample_four_state))
  /\ uniquePlayers sample_four_state = 2
  /\ length (groupedProps (allProps sample_four_state)) = 3
  /\ length (allProps sample_four_state) = 4.
Proof.
  split.
  - apply (uniquePlayers_bound sample_four_state). repeat constructor.
  - repeat split; vm_compute; reflexivity.
Defined.

(** Witness for X16: the three ranked arbitrage records. *)
Lemma filteredData_sorted_by_value_witness :
  StronglySorted
    (fun a b => num_ge (tab_rank (activeTab sample_ranked_state) a)
                  (tab_rank (activeTab sample_ranked_state) b) = true)
    (@filteredData codeUnitCollator sample_ranked_state).
Proof.
  apply (@filteredData_sorted_by_value codeUnitCollator sample_ranked_state).
  - discriminate.
  - reflexivity.
  - repeat constructor.
Defined.

(** Witness for X17: five records, A and C of rank 2.1 with B, D and E
    between and after them; A comes out before C. *)
Lemma filteredData_sort_stable_witness :
  List.filter (has_rank (activeTab sample_tied_state) (21 # 10))
    (@filteredData codeUnitCollator sample_tied_state)
  = List.filter (has_rank (activeTab sample_tied_state) (21 # 10))
      (filtered sample_tied_state (base_data sample_tied_state))
  /\ map item_player (@filteredData codeUnitCollator sample_tied_state)
     = ["B"; "E"; "A"; "C"; "D"].
Proof.
  split.
  - apply (@filteredData_sort_stable codeUnitCollator sample_tied_state (21 # 10)).
    + discriminate.
    + reflexivity.
    + repeat constructor.
  - vm_compute. reflexivity.
Defined.

(** Witness for X18: the value tab, sorted by player by code units. *)
Lemma filteredData_sorted_by_player_witness :
  @player_sorted codeUnitCollator (@filteredData codeUnitCollator sample_value_state).
Proof.
  apply (@filteredData_sorted_by_player codeUnitCollator sample_value_state).
  - exact codeUnitCollator_antisym.
  - discriminate.
  - discriminate.
Defined.

(** Witness for X19: the queries "adams" and "ADAMS". *)
Lemma filteredData_search_case_witness :
  @filteredData codeUnitCollator (setSearchQuery "adams" sample_value_state)
    = @filteredData codeUnitCollator (setSearchQuery "ADAMS" sample_value_state)
  /\ @filteredData codeUnitCollator
       (setSearchQuery (toUpperCase "adams") sample_value_state)
     = @filteredData codeUnitCollator (setSearchQuery "adams" sample_value_state).
Proof.
  apply (@filteredData_search_case codeUnitCollator sample_value_state "adams" "ADAMS");
    reflexivity.
Defined.

(** Witness for X20: a batch of six successes. *)
Lemma fetchAllData_success_witness :
  let b := mkBatch (Normal (mkResponse true (Normal [sample_dk; sample_fd])))
             (Normal (mkResponse true (Normal [sample_arb_53])))
             (Normal (mkResponse true (Normal [])))
             (Normal (mkResponse true (Normal [])))
             (Normal (mkResponse true (Normal [sample_value_a])))
             (Normal (mkResponse true (Normal []))) in
  let d := mkPayload [sample_dk; sample_fd] [sample_arb_53] [] [] [sample_value_a] [] in
  let st' := fetchAllData b initial_state in
  allProps st' = propsData d /\ arbitrage st' = arbData d
  /\ discrepancies st' = discData d /\ bestOdds st' = oddsData d
  /\ valueBets st' = valueData d /\ consensusBets st' = consensusData d
  /\ error st' = Null /\ loading st' = false.
Proof.
  apply (fetchAllData_success
           (mkBatch (Normal (mkResponse true (Normal [sample_dk; sample_fd])))
              (Normal (mkResponse true (Normal [sample_arb_53])))
              (Normal (mkResponse true (Normal [])))
              (Normal (mkResponse true (Normal [])))
              (Normal (mkResponse true (Normal [sample_value_a])))
              (Normal (mkResponse true (Normal []))))
           initial_state
           (mkPayload [sample_dk; sample_fd] [sample_arb_53] [] [] [sample_value_a] []));
    reflexivity.
Defined.

(** Witness for X23: the scraper answers 500 with an error text, on a state
    that shows the sample arbitrage records. *)
Lemma handleFullRefresh_scrape_failure_witness :
  let scrape := Normal (mkScrapeResponse false (Normal (Val "scraper crashed"))) in
  let app := mkApp sample_arb_state true in
  let st := app_state app in
  let st' := app_state (handleFullRefresh scrape sample_failed_batch app) in
  allProps st' = allProps st /\ arbitrage st' = arbitrage st
  /\ discrepancies st' = discrepancies st /\ bestOdds st' = bestOdds st
  /\ valueBets st' = valueBets st /\ consensusBets st' = consensusBets st
  /\ (exists message, error st' = Val message)
  /\ (forall b', handleFullRefresh scrape b' app
                 = handleFullRefresh scrape sample_failed_batch app)
  /\ (forall text, scrape = Normal (mkScrapeResponse false (Normal (Val text))) ->
                   text <> "" -> error st' = Val text).
Proof.
  apply (handleFullRefresh_scrape_failure
           (Normal (mkScrapeResponse false (Normal (Val "scraper crashed"))))
           sample_failed_batch (mkApp sample_arb_state true)).
  - reflexivity.
  - reflexivity.
  - intros res [= <-]. reflexivity.
Defined.

(** Witness for X24: the scraper answers 200, the batch then fails. *)
Lemma handleFullRefresh_scrape_success_witness :
  let res := mkScrapeResponse true (Normal Absent) in
  let app := mkApp sample_arb_state true in
  let st' := app_state (handleFullRefresh (Normal res) sample_failed_batch app) in
  let fetched := fetchAllData sample_failed_batch (app_state app) in
  allProps st' = allProps fetched /\ arbitrage st' = arbitrage fetched
  /\ discrepancies st' = discrepancies fetched /\ bestOdds st' = bestOdds fetched
  /\ valueBets st' = valueBets fetched /\ consensusBets st' = consensusBets fetched
  /\ error st' = error fetched /\ loading st' = false.
Proof.
  apply (handleFullRefresh_scrape_success (mkScrapeResponse true (Normal Absent))
           sample_failed_batch (mkApp sample_arb_state true));
    reflexivity.
Defined.


(** Witness for X28: the sample arbitrage records, one without
    [profit_percent]. *)
Lemma totalArbProfit_missing_witness : totalArbProfit sample_arb_state = NaN.
Proof.
  apply (totalArbProfit_missing sample_arb_state sample_arb_missing).
  - left. reflexivity.
  - reflexivity.
Defined.

(** Witness for X30: the arbitrage tab of the sample state. *)
Lemma filteredData_v1_agrees_witness :
  @filteredData_v1 codeUnitCollator sample_arb_state
  = @filteredData codeUnitCollator sample_arb_state.
Proof.
  apply (@filteredData_v1_agrees codeUnitCollator sample_arb_state).
  right. left. reflexivity.
Defined.
